(** * Backup of VK profile photographs to Yandex.Disk

    A shallow embedding of [main.py] (class [VKPhotoBackup]) and the
    properties of its backup pipeline: selection of the largest size
    variant, allocation of collision-free file names, idempotent creation
    of the destination folder and the per-photo upload loop; and of its
    command line: validation of the identifier typed, the dialogue, the
    tokens of the environment and the exit status.

    Python integers are [Z], strings are [string] (UTF-8 bytes), the
    [set] of used file names is a [gset string], dictionaries decoded from
    JSON are records whose optional keys are [option] fields, and the
    dictionary returned by [backup_photos] is a [gmap string value]. *)

From stdpp Require Import gmap strings pretty list sorting.

(* [set_solver] clears hypotheses that may already be gone. *)
#[local] Set Warnings "-clear-no-such-hyp".

(** ** Exceptions and outcomes *)

(** The exception classes the program raises or catches.
    [RequestException] stands for [requests.RequestException] and its
    subclasses ([HTTPError], [ConnectionError], [Timeout]); [OSError] is
    Python's [IOError]. *)
Inductive exn_class := ValueError | KeyError | RequestException | OSError.

#[global] Instance exn_class_eq_dec : EqDecision exn_class.
Proof. solve_decision. Defined.

(** An exception with the text [str(e)] gives for it. *)
Record exn := mkExn { exn_kind : exn_class; exn_str : string }.

(** What a call does: return a value, raise, or exhaust the fuel that
    bounds the [while] loop of [generate_filename]. *)
Inductive outcome (A : Type) :=
| Returned (a : A)
| Raised (e : exn)
| OutOfFuel.
Arguments Returned {A} a.
Arguments Raised {A} e.
Arguments OutOfFuel {A}.

(** ** Data decoded from the VK API *)

(** One entry of a photo's ['sizes'] array.  ['width'] and ['height'] are
    read with [.get(key, 0)] and are pixel counts; ['url'] and ['type'] are
    read by subscript. *)
Record Size := mkSize {
  size_width : option N;
  size_height : option N;
  size_url : string;
  size_type : string
}.

(** The ['likes'] object of a photo. *)
Record Likes := mkLikes { likes_count : option Z }.

(** A photo object; every key is read with [.get] and may be absent. *)
Record Photo := mkPhoto {
  photo_id : option Z;
  photo_date : option Z;
  photo_likes : option Likes;
  photo_sizes : option (list Size)
}.

(** [size.get('width', 0) * size.get('height', 0)] *)
Definition total_pixels (size : Size) : N :=
  (default 0 (size_width size) * default 0 (size_height size))%N.

(** [photo.get('sizes', [])] *)
Definition sizes_of (photo : Photo) : list Size :=
  default [] (photo_sizes photo).

(** [photo.get('likes', {}).get('count', 0)] *)
Definition likes_of (photo : Photo) : Z :=
  default 0%Z (likes_count (default (mkLikes None) (photo_likes photo))).

(** ** SizeSelector: [get_largest_photo_size] *)

(** One iteration of [for size in sizes] on the pair
    [(max_size, best_photo)]. *)
Definition largest_step (acc : N * Size) (size : Size) : N * Size :=
  if (fst acc <? total_pixels size)%N then (total_pixels size, size) else acc.

Definition get_largest_photo_size (photo : Photo) : outcome (string * string) :=
  match sizes_of photo with
  | [] => Raised (mkExn ValueError "Размеры фотографии не найдены")
  | (first :: _) as sizes =>
      let best_photo := snd (fold_left largest_step sizes (0%N, first)) in
      Returned (size_url best_photo, size_type best_photo)
  end.

(** ** Calendar dates: [datetime.fromtimestamp(ts).strftime('%Y-%m-%d')] *)

(** Year, month and day of the proleptic Gregorian calendar for a number of
    days since 1970-01-01. *)
Definition civil_from_days (days : Z) : Z * Z * Z :=
  let z := (days + 719468)%Z in
  let era := (z `div` 146097)%Z in
  let doe := (z - era * 146097)%Z in
  let yoe := ((doe - doe `div` 1460 + doe `div` 36524 - doe `div` 146096) `div` 365)%Z in
  let doy := (doe - (365 * yoe + yoe `div` 4 - yoe `div` 100))%Z in
  let mp := ((5 * doy + 2) `div` 153)%Z in
  let d := (doy - (153 * mp + 2) `div` 5 + 1)%Z in
  let m := (if (mp <? 10)%Z then mp + 3 else mp - 9)%Z in
  ((if (m <=? 2)%Z then yoe + era * 400 + 1 else yoe + era * 400)%Z, m, d).

Definition digit (n : Z) : Ascii.ascii :=
  Ascii.ascii_of_nat (48 + Z.to_nat (n `mod` 10)).

Definition pad2 (n : Z) : string :=
  String (digit (n `div` 10)) (String (digit n) "").

Definition pad4 (n : Z) : string :=
  String (digit (n `div` 1000)) (String (digit (n `div` 100)) (pad2 n)).

(** [strftime('%Y-%m-%d')] on a date whose year has at most four digits:
    the year on four digits, the month and the day on two. *)
Definition strftime_ymd (date : Z * Z * Z) : string :=
  let '(y, m, d) := date in
  pad4 y +:+ "-" +:+ pad2 m +:+ "-" +:+ pad2 d.

Section Allocator.

(** The host's time zone: seconds east of UTC at a given instant. *)
Variable utc_offset : Z → Z.

(** [datetime.fromtimestamp]: the local calendar date of an epoch time;
    [datetime] holds years 1 to 9999 only and raises outside them (a
    [ValueError]; for the largest magnitudes CPython raises an
    [OverflowError] or an [OSError] instead, which the program treats in
    the same way). *)
Definition fromtimestamp (ts : Z) : exn + Z * Z * Z :=
  let '(y, m, d) := civil_from_days ((ts + utc_offset ts) `div` 86400) in
  if bool_decide (1 ≤ y ≤ 9999)%Z then inr (y, m, d)
  else inl (mkExn ValueError ("year " +:+ pretty y +:+ " is out of range")).

(** ** FilenameAllocator: [generate_filename] *)

(** The name tried at a given value of [counter] once the plain name is
    taken. *)
Definition fallback_name (base_filename : string) (photo_id counter : Z) : string :=
  if decide (counter = 1%Z)
  then base_filename +:+ "_" +:+ pretty photo_id +:+ ".jpg"
  else base_filename +:+ "_" +:+ pretty photo_id +:+ "_" +:+ pretty counter +:+ ".jpg".

(** [while filename in used_filenames: ...]; [fuel] bounds the number of
    membership tests, [None] means the bound was reached. *)
Fixpoint retry (fuel : nat) (base_filename : string) (photo_id counter : Z)
    (filename : string) (used_filenames : gset string) : option string :=
  match fuel with
  | O => None
  | S fuel' =>
      if decide (filename ∈ used_filenames)
      then retry fuel' base_filename photo_id (counter + 1)%Z
             (fallback_name base_filename photo_id counter) used_filenames
      else Some filename
  end.

(** [base_filename]: the likes count, followed by the capture date when
    more than one photo of the list has that count. *)
Definition base_filename_of (photo : Photo) (photos : list Photo) : exn + string :=
  let likes_count := likes_of photo in
  let same_likes_photos := filter (λ p, likes_of p = likes_count) photos in
  if decide (1 < length same_likes_photos)
  then match fromtimestamp (default 0%Z (photo_date photo)) with
       | inl e => inl e
       | inr photo_date => inr (pretty likes_count +:+ "_" +:+ strftime_ymd photo_date)
       end
  else inr (pretty likes_count).

(** The three objects [generate_filename] receives by reference. *)
Record Objects := mkObjects {
  obj_photo : Photo;
  obj_photos : list Photo;
  obj_used_filenames : gset string
}.

(** [generate_filename(photo, photos, used_filenames)], as a transformer
    of the objects it is passed. *)
Definition generate_filename (fuel : nat) (o : Objects) : outcome string * Objects :=
  let photo_id := default 0%Z (photo_id (obj_photo o)) in
  match base_filename_of (obj_photo o) (obj_photos o) with
  | inl e => (Raised e, o)
  | inr base_filename =>
      match retry fuel base_filename photo_id 1 (base_filename +:+ ".jpg")
              (obj_used_filenames o) with
      | None => (OutOfFuel, o)
      | Some filename =>
          (Returned filename,
           mkObjects (obj_photo o) (obj_photos o)
                     ({[ filename ]} ∪ obj_used_filenames o))
      end
  end.

(** A run of the allocator: the photos of [calls] are named one after the
    other against the same list [photos] and the same tracking set. *)
Fixpoint allocate (fuel : nat) (photos calls : list Photo) (used : gset string)
    : list (outcome string) * gset string :=
  match calls with
  | [] => ([], used)
  | photo :: calls' =>
      let '(r, o) := generate_filename fuel (mkObjects photo photos used) in
      let '(rs, used') := allocate fuel photos calls' (obj_used_filenames o) in
      (r :: rs, used')
  end.

End Allocator.

(** ** The outside world: HTTP services, clock and file system *)

Inductive method := GET | PUT | POST.

#[global] Instance method_eq_dec : EqDecision method.
Proof. solve_decision. Defined.

(** A request as the program builds it; [req_authorization] is the
    [Authorization] header carried by the Yandex session. *)
Record Request := mkRequest {
  req_method : method;
  req_url : string;
  req_params : list (string * string);
  req_authorization : option string
}.

(** The ['error'] object of a VK answer. *)
Record VKError := mkVKError {
  error_code : option Z;
  error_msg : option string
}.

(** The decoded body [response.json()] of a VK answer: the ['error'] key
    and [data.get('response', {}).get('items', [])]. *)
Record VKData := mkVKData {
  data_error : option VKError;
  data_items : option (list Photo)
}.

(** An HTTP response: its status, the text [raise_for_status] would put in
    its [HTTPError], and its decoded body. *)
Record Response := mkResponse {
  status_code : Z;
  http_error_text : string;
  json : VKData
}.

(** What a request yields: a response, or a [RequestException] raised by
    the transport (connection failure, timeout). *)
Inductive reply :=
| Answered (response : Response)
| Unreachable (text : string).

(** One entry of the manifest: [{'file_name': ..., 'size': ...}]. *)
Record Entry := mkEntry { file_name : string; size_tag : string }.

(** The host the program runs on. *)
Record Host (World : Type) := mkHost {
  (** [requests.get], [session.get], [session.put], [session.post] *)
  send : Request → World → reply * World;
  (** [open(filename, 'w')] followed by [json.dump]; [Some text] is an
      [IOError] *)
  write_json : string → list Entry → World → option string * World;
  (** [time.time()] behind [datetime.now()] *)
  clock : World → Z;
  (** the local time zone *)
  host_utc_offset : Z → Z
}.
Arguments send {World} _ _ _.
Arguments write_json {World} _ _ _ _.
Arguments clock {World} _ _.
Arguments host_utc_offset {World} _ _.

(** What the program did to the outside world, in order. *)
Inductive event :=
| Sent (request : Request)
| Wrote (filename : string) (content : list Entry).

Record State (World : Type) := mkState {
  world : World;
  trace : list event
}.
Arguments mkState {World} _ _.
Arguments world {World} _.
Arguments trace {World} _.

(** Values stored in the dictionary [backup_photos] returns. *)
Inductive value :=
| VBool (b : bool)
| VInt (n : Z)
| VStr (s : string)
| VList (entries : list Entry).

(** The manifests written during a trace. *)
Definition manifests (t : list event) : list (string * list Entry) :=
  omap (λ ev, match ev with Wrote f c => Some (f, c) | Sent _ => None end) t.

(** The requests of a given method sent during a trace. *)
Definition requests_of (m : method) (t : list event) : list Request :=
  omap (λ ev, match ev with
              | Sent r => if decide (req_method r = m) then Some r else None
              | Wrote _ _ => None
              end) t.

(** ** The program: class [VKPhotoBackup] *)

(** The instance attributes set by [__init__]. *)
Record VKPhotoBackup := mkVKPhotoBackup {
  vk_token : string;
  yandex_token : string
}.

Definition VK_API_VERSION : string := "5.131".
Definition VK_API_BASE_URL : string := "https://api.vk.com/method".
Definition YANDEX_API_BASE_URL : string := "https://cloud-api.yandex.net/v1/disk".

(** The local variables of [backup_photos] that the upload loop updates. *)
Record Locals := mkLocals {
  photos_info : list Entry;
  successful_uploads : nat;
  used_filenames : gset string
}.

(** [max(s.get('width', 0) * s.get('height', 0) for s in sizes)], and 0
    without sizes: the sort key of [backup_photos]. *)
Definition get_max_size (photo : Photo) : N :=
  match sizes_of photo with
  | [] => 0%N
  | s :: sizes => foldl N.max (total_pixels s) (total_pixels <$> sizes)
  end.

(** [photos.sort(key=get_max_size, reverse=True)]: the stable sort by
    decreasing key, photos of equal key keeping their order. *)
Fixpoint insert_desc (photo : Photo) (sorted : list Photo) : list Photo :=
  match sorted with
  | [] => [photo]
  | q :: sorted' =>
      if (get_max_size photo <? get_max_size q)%N
      then q :: insert_desc photo sorted'
      else photo :: sorted
  end.

Definition sort_photos (photos : list Photo) : list Photo :=
  foldr insert_desc [] photos.

(** The dictionary returned on every failure path. *)
Definition failure (message : string) : gmap string value :=
  <["success" := VBool false]> (<["message" := VStr message]> ∅).

Section Client.

Context {World : Type}.
Variable host : Host World.
Variable self : VKPhotoBackup.

(** Computations of the program: they act on the outside world and return,
    raise or run out of fuel.  Logging, the progress bar and the pacing
    [time.sleep] are left out; an [except] clause that logs and re-raises
    is the identity and is left out as well. *)
Definition M (A : Type) : Type := State World → outcome A * State World.

Definition ret {A} (a : A) : M A := λ s, (Returned a, s).

Definition raise {A} (e : exn) : M A := λ s, (Raised e, s).

Definition bind {A B} (m : M A) (k : A → M B) : M B := λ s,
  match m s with
  | (Returned a, s') => k a s'
  | (Raised e, s') => (Raised e, s')
  | (OutOfFuel, s') => (OutOfFuel, s')
  end.

(** [try: m  except cls: handler] *)
Definition try_except {A} (m : M A) (catches : exn → bool) (handler : exn → M A) : M A := λ s,
  match m s with
  | (Raised e, s') => if catches e then handler e s' else (Raised e, s')
  | r => r
  end.

Definition is_request_exception (e : exn) : bool :=
  bool_decide (exn_kind e = RequestException).

#[local] Instance M_ret : MRet M := @ret.
#[local] Instance M_bind : MBind M := λ A B k m, bind m k.

(** Sending a request with [requests]: the transport either answers or
    raises a [RequestException]. *)
Definition request (r : Request) : M Response := λ s,
  let '(a, w) := send host r (world s) in
  let s' := mkState w (trace s ++ [Sent r]) in
  match a with
  | Answered response => (Returned response, s')
  | Unreachable text => (Raised (mkExn RequestException text), s')
  end.

(** [self.session.get/put/post]: the session carries the OAuth header. *)
Definition session_request (m : method) (url : string)
    (params : list (string * string)) : M Response :=
  request (mkRequest m url params (Some ("OAuth " +:+ yandex_token self))).

(** [requests.get] *)
Definition requests_get (url : string) (params : list (string * string)) : M Response :=
  request (mkRequest GET url params None).

(** [response.raise_for_status()]: an [HTTPError] for the client and
    server error statuses 400 to 599, nothing otherwise. *)
Definition raise_for_status (response : Response) : M unit :=
  if bool_decide (400 ≤ status_code response < 600)%Z
  then raise (mkExn RequestException (http_error_text response))
  else ret tt.

Definition check_yandex_disk_availability : M (option bool) :=
  response ← session_request GET (YANDEX_API_BASE_URL +:+ "/resources") [("path", "/")];
  if decide (status_code response = 401%Z)
  then raise (mkExn ValueError "Невалидный токен Яндекс.Диска")
  else if decide (status_code response = 200%Z)
  then ret (Some true)
  else (raise_for_status response ;; ret None).

Definition check_vk_token_validity : M bool :=
  response ← requests_get (VK_API_BASE_URL +:+ "/account.getProfileInfo")
               [("access_token", vk_token self); ("v", VK_API_VERSION)];
  raise_for_status response;;
  match data_error (json response) with
  | Some error =>
      if decide (default 0%Z (error_code error) = 5%Z)
      then raise (mkExn ValueError "Невалидный токен VK")
      else raise (mkExn ValueError
                    ("VK API Error: " +:+ default "Неизвестная ошибка" (error_msg error)))
  | None => ret true
  end.

Definition check_folder_exists (folder_name : string) : M bool :=
  try_except
    (response ← session_request GET (YANDEX_API_BASE_URL +:+ "/resources")
                  [("path", "/" +:+ folder_name)];
     ret (bool_decide (status_code response = 200%Z)))
    is_request_exception (λ _, ret false).

Definition get_profile_photos (user_id : string) (count : Z) : M (list Photo) :=
  response ← requests_get (VK_API_BASE_URL +:+ "/photos.get")
               [("owner_id", user_id); ("album_id", "profile"); ("extended", "1");
                ("photo_sizes", "1"); ("count", pretty count);
                ("access_token", vk_token self); ("v", VK_API_VERSION)];
  raise_for_status response;;
  match data_error (json response) with
  | Some error =>
      raise (mkExn ValueError
               ("VK API Error: " +:+ default "Неизвестная ошибка" (error_msg error)))
  | None => ret (default [] (data_items (json response)))
  end.

Definition create_yandex_folder (folder_name : string) : M (option bool) :=
  present ← check_folder_exists folder_name;
  if (present : bool) then ret (Some true)
  else
    response ← session_request PUT (YANDEX_API_BASE_URL +:+ "/resources")
                 [("path", "/" +:+ folder_name)];
    if decide (status_code response = 201%Z) then ret (Some true)
    else if decide (status_code response = 409%Z) then ret (Some true)
    else (raise_for_status response ;; ret None).

Definition upload_photo_to_yandex (photo_url filename folder_name : string) : M (option bool) :=
  response ← session_request POST (YANDEX_API_BASE_URL +:+ "/resources/upload")
               [("path", "/" +:+ folder_name +:+ "/" +:+ filename); ("url", photo_url)];
  if decide (status_code response = 202%Z) then ret (Some true)
  else (raise_for_status response ;; ret None).

Definition save_photos_info (photos_info : list Entry) (user_id : string) : M string := λ s,
  let filename := "photos_info_" +:+ user_id +:+ ".json" in
  let '(r, w) := write_json host filename photos_info (world s) in
  let s' := mkState w (trace s ++ [Wrote filename photos_info]) in
  match r with
  | None => (Returned filename, s')
  | Some text => (Raised (mkExn OSError text), s')
  end.

(** [datetime.now().strftime('%Y-%m-%d')] *)
Definition today : M string := λ s,
  match fromtimestamp (host_utc_offset host) (clock host (world s)) with
  | inl e => (Raised e, s)
  | inr date => (Returned (strftime_ymd date), s)
  end.

(** The body of the upload loop with its [except Exception]: a photo whose
    processing raises leaves the manifest and the counter as they were. *)
Definition process_photo (fuel : nat) (photos : list Photo) (folder_name : string)
    (photo : Photo) (l : Locals) : M Locals := λ s,
  match get_largest_photo_size photo with
  | Returned (photo_url, size_type) =>
      match generate_filename (host_utc_offset host) fuel
              (mkObjects photo photos (used_filenames l)) with
      | (Returned filename, o) =>
          match upload_photo_to_yandex photo_url filename folder_name s with
          | (Returned _, s') =>
              (Returned (mkLocals (photos_info l ++ [mkEntry filename size_type])
                                  (S (successful_uploads l))
                                  (obj_used_filenames o)), s')
          | (Raised _, s') =>
              (Returned (mkLocals (photos_info l) (successful_uploads l)
                                  (obj_used_filenames o)), s')
          | (OutOfFuel, s') => (OutOfFuel, s')
          end
      | (Raised _, o) =>
          (Returned (mkLocals (photos_info l) (successful_uploads l)
                              (obj_used_filenames o)), s)
      | (OutOfFuel, _) => (OutOfFuel, s)
      end
  | Raised _ => (Returned l, s)
  | OutOfFuel => (OutOfFuel, s)
  end.

(** [for i, photo in enumerate(photos): ...] *)
Fixpoint upload_loop (fuel : nat) (photos : list Photo) (folder_name : string)
    (todo : list Photo) (l : Locals) : M Locals :=
  match todo with
  | [] => ret l
  | photo :: todo' =>
      l' ← process_photo fuel photos folder_name photo l;
      upload_loop fuel photos folder_name todo' l'
  end.

Definition backup_photos (fuel : nat) (user_id : string) (count : Z)
    : M (gmap string value) :=
  try_except
    (check_vk_token_validity;;
     check_yandex_disk_availability;;
     fetched ← get_profile_photos user_id count;
     match fetched with
     | [] => ret (failure "У пользователя нет фотографий в профиле или профиль закрыт")
     | _ :: _ =>
         let photos := sort_photos fetched in
         date ← today;
         let folder_name := "VK_Photos_" +:+ user_id +:+ "_" +:+ date in
         create_yandex_folder folder_name;;
         l ← upload_loop fuel photos folder_name photos (mkLocals [] 0 ∅);
         if decide (successful_uploads l = 0)
         then ret (failure
           "Ни одна фотография не была загружена. Проверьте доступность сервисов.")
         else
           json_filename ← save_photos_info (photos_info l) user_id;
           ret (<["success" := VBool true]>
                (<["total_photos" := VInt (Z.of_nat (length photos))]>
                (<["uploaded_photos" := VInt (Z.of_nat (successful_uploads l))]>
                (<["folder_name" := VStr folder_name]>
                (<["json_file" := VStr json_filename]>
                (<["photos_info" := VList (photos_info l)]> ∅))))))
     end)
    (λ _, true) (λ e, ret (failure (exn_str e))).

End Client.

(** ** A simulated host

    VK answers the token check and serves a fixed list of photos; the disk
    keeps a set of folder paths, the root among them from the start, and
    answers as Yandex.Disk's REST API does
    (GET: 200 for a path that exists and 404 otherwise; PUT: 201 on
    creation and 409 for a path that exists); upload requests are answered
    with the statuses of a script, and with 202 once the script is used up;
    files are written without fault. *)
Module Simulation.

Record Sim := mkSim {
  sim_photos : list Photo;
  sim_folders : gset string;
  sim_uploads : list Z;
  sim_clock : Z
}.

Definition moscow (_ : Z) : Z := 10800%Z.

Definition param (key : string) (params : list (string * string)) : string :=
  default "" (snd <$> head (filter (λ kv, fst kv = key) params)).

Definition answer (status : Z) (items : option (list Photo)) : reply :=
  Answered (mkResponse status ("HTTP " +:+ pretty status) (mkVKData None items)).

Definition sim_send (r : Request) (w : Sim) : reply * Sim :=
  let path := param "path" (req_params r) in
  match req_method r with
  | GET =>
      if decide (req_url r = VK_API_BASE_URL +:+ "/photos.get")
      then (answer 200 (Some (sim_photos w)), w)
      else if decide (req_url r = VK_API_BASE_URL +:+ "/account.getProfileInfo")
      then (answer 200 None, w)
      else if decide (path ∈ sim_folders w)
      then (answer 200 None, w)
      else (answer 404 None, w)
  | PUT =>
      if decide (path ∈ sim_folders w)
      then (answer 409 None, w)
      else (answer 201 None,
            mkSim (sim_photos w) ({[ path ]} ∪ sim_folders w) (sim_uploads w) (sim_clock w))
  | POST =>
      match sim_uploads w with
      | [] => (answer 202 None, w)
      | status :: rest =>
          (answer status None,
           mkSim (sim_photos w) (sim_folders w) rest (sim_clock w))
      end
  end.

Definition sim_host : Host Sim :=
  mkHost Sim sim_send (λ _ _ w, (None, w)) sim_clock moscow.



Definition me : VKPhotoBackup := mkVKPhotoBackup "vk-token" "disk-token".

Definition start (photos : list Photo) (uploads : list Z) : State Sim :=
  mkState (mkSim photos {[ "/" ]} uploads 1700000000) [].

Definition variant (w h : N) (tag : string) : Size :=
  mkSize (Some w) (Some h) ("https://vk.example/" +:+ tag +:+ ".jpg") tag.

Definition photo (id date likes : Z) (sizes : list Size) : Photo :=
  mkPhoto (Some id) (Some date) (Some (mkLikes (Some likes))) (Some sizes).

Definition five_photos : list Photo :=
  [ photo 1 1600000000 10 [variant 75 50 "s"; variant 1280 853 "z"];
    photo 2 1610000000 10 [variant 130 87 "m"];
    photo 3 1620000000 3 [variant 604 403 "x"; variant 604 403 "y"];
    photo 4 1630000000 0 [variant 0 0 "s"; variant 0 0 "m"];
    photo 5 1640000000 7 [variant 807 538 "y"] ].

End Simulation.

(** ** Vocabulary of the statements *)

Definition ends_with (suffix s : string) : Prop := ∃ t, s = t +:+ suffix.

(** [s] is [prefix], a qualifier and [suffix]. *)
Definition framed_by (prefix suffix s : string) : Prop :=
  ∃ t, s = prefix +:+ t +:+ suffix.

(** [best] is the first of the variants of largest area: it stands at
    index [i], no variant is larger and every earlier one is smaller. *)
Definition first_largest (sizes : list Size) (i : nat) (best : Size) : Prop :=
  sizes !! i = Some best
  ∧ (∀ s, s ∈ sizes → (total_pixels s ≤ total_pixels best)%N)
  ∧ (∀ j s, j < i → sizes !! j = Some s → (total_pixels s < total_pixels best)%N).

(** The request [create_yandex_folder] sends to look a folder up ([GET])
    or to create it ([PUT]). *)
Definition folder_request (self : VKPhotoBackup) (m : method) (folder_name : string)
    : Request :=
  mkRequest m (YANDEX_API_BASE_URL +:+ "/resources") [("path", "/" +:+ folder_name)]
            (Some ("OAuth " +:+ yandex_token self)).

(** A destination that keeps its folders as Yandex.Disk's REST API
    documents: a lookup answers 200 exactly for a path that exists and
    changes nothing; a creation answers 201 and adds the path, or answers
    409 for a path that exists and changes nothing. *)
Record FolderStore {World : Type} (host : Host World) (self : VKPhotoBackup)
    (folders : World → gset string) : Prop := mkFolderStore {
  store_get : ∀ name w,
    ∃ response,
      (send host (folder_request self GET name) w).1 = Answered response
      ∧ folders (send host (folder_request self GET name) w).2 = folders w
      ∧ (status_code response = 200%Z ↔ "/" +:+ name ∈ folders w);
  store_put : ∀ name w,
    ∃ response,
      (send host (folder_request self PUT name) w).1 = Answered response
      ∧ if decide ("/" +:+ name ∈ folders w)
        then status_code response = 409%Z
             ∧ folders (send host (folder_request self PUT name) w).2 = folders w
        else status_code response = 201%Z
             ∧ folders (send host (folder_request self PUT name) w).2
               = {[ "/" +:+ name ]} ∪ folders w
}.

(** The dictionary a run returned, the empty one when it did not return. *)
Definition result_of (r : outcome (gmap string value)) : gmap string value :=
  match r with Returned result => result | _ => ∅ end.

(** Whether a call returned, as opposed to raising or exhausting its fuel. *)
Definition returns {A} (r : outcome A) : bool :=
  match r with Returned _ => true | _ => false end.

(** A computation that writes no manifest. *)
Definition quiet {World A} (m : State World → outcome A * State World) : Prop :=
  ∀ s, manifests (trace (m s).2) = manifests (trace s).

(** The state of the loop of [get_largest_photo_size] after the variants
    of [seen]. *)
Definition largest_inv (first : Size) (seen : list Size) (acc : N * Size) : Prop :=
  (∀ s, s ∈ seen → (total_pixels s ≤ acc.1)%N)
  ∧ ((acc.1 = 0%N ∧ acc.2 = first)
     ∨ ((0 < acc.1)%N
        ∧ ∃ i, seen !! i = Some acc.2 ∧ total_pixels acc.2 = acc.1
               ∧ ∀ j s, j < i → seen !! j = Some s → (total_pixels s < acc.1)%N)).

(** What one turn of the loop does: the photo fails, at one of the three
    steps, and the manifest and the counter are as before; or it is
    uploaded, and its entry and one unit are added. *)
Definition photo_failed {World : Type} (host : Host World) (self : VKPhotoBackup)
    (fuel : nat) (photos : list Photo) (folder : string)
    (photo : Photo) (l l1 : Locals) (s : State World) : Prop :=
  (∃ e, get_largest_photo_size photo = Raised e
        ∨ (generate_filename (host_utc_offset host) fuel
             (mkObjects photo photos (used_filenames l))).1 = Raised e
        ∨ ∃ url tag name,
            get_largest_photo_size photo = Returned (url, tag)
            ∧ (generate_filename (host_utc_offset host) fuel
                 (mkObjects photo photos (used_filenames l))).1 = Returned name
            ∧ (upload_photo_to_yandex host self url name folder s).1 = Raised e)
  ∧ photos_info l1 = photos_info l
  ∧ successful_uploads l1 = successful_uploads l.

Definition photo_uploaded {World : Type} (host : Host World) (self : VKPhotoBackup)
    (fuel : nat) (photos : list Photo) (folder : string)
    (photo : Photo) (l l1 : Locals) (s : State World) : Prop :=
  ∃ url tag name r,
    get_largest_photo_size photo = Returned (url, tag)
    ∧ (generate_filename (host_utc_offset host) fuel
         (mkObjects photo photos (used_filenames l))).1 = Returned name
    ∧ (upload_photo_to_yandex host self url name folder s).1 = Returned r
    ∧ photos_info l1 = photos_info l ++ [mkEntry name tag]
    ∧ successful_uploads l1 = S (successful_uploads l).

(** The values of the calls that returned. *)
Definition returned {A} (outs : list (outcome A)) : list A :=
  omap (λ r, match r with Returned a => Some a | _ => None end) outs.

(** ** The command line *)

(** Python strings are sequences of code points, the strings here are their
    UTF-8 bytes.  The patterns the program searches for are ASCII, and an
    ASCII byte never occurs inside the encoding of another code point, so
    searching, cutting and comparing by bytes agrees with doing so by code
    points. *)

(** [s.startswith(prefix)] *)
Definition startswith (prefix s : string) : bool := String.prefix prefix s.

(** [s[n:]] *)
Fixpoint slice_from (n : nat) (s : string) : string :=
  match n, s with
  | S n', String _ s' => slice_from n' s'
  | _, _ => s
  end.

(** [s.replace(old, '')] for a non-empty [old]: the occurrences of [old]
    are found from left to right, without overlap, and dropped.  [skip]
    counts the characters of the occurrence just found that are still to
    be dropped. *)
Fixpoint replace_from (old : string) (skip : nat) (s : string) : string :=
  match s with
  | EmptyString => EmptyString
  | String c s' =>
      match skip with
      | S skip' => replace_from old skip' s'
      | O =>
          if String.prefix old s
          then replace_from old (String.length old - 1) s'
          else String c (replace_from old 0 s')
      end
  end.

Definition replace_with_nothing (old s : string) : string := replace_from old 0 s.

(** The line feed of the messages. *)
Definition nl : string := String (Ascii.ascii_of_nat 10) EmptyString.

(** [bool(v)] *)
Definition truthy (v : value) : bool :=
  match v with
  | VBool b => b
  | VInt n => negb (n =? 0)%Z
  | VStr s => negb (String.eqb s "")
  | VList entries => match entries with [] => false | _ :: _ => true end
  end.

(** A [bool] or an [int] as a number. *)
Definition number (v : value) : option Z :=
  match v with
  | VBool b => Some (if b then 1 else 0)%Z
  | VInt n => Some n
  | _ => None
  end.

#[global] Instance Entry_eq_dec : EqDecision Entry.
Proof. solve_decision. Defined.

(** [a < b] on lists of dictionaries: the first place where the two differ
    decides, and dictionaries are not ordered, so that comparing there is a
    [TypeError] ([None]); without such a place the shorter list is the
    smaller. *)
Fixpoint list_less_than (a b : list Entry) : option bool :=
  match a, b with
  | [], [] => Some false
  | [], _ :: _ => Some true
  | _ :: _, [] => Some false
  | x :: a', y :: b' => if decide (x = y) then list_less_than a' b' else None
  end.

(** [a < b]; [None] is a [TypeError]. *)
Definition less_than (a b : value) : option bool :=
  match number a, number b with
  | Some m, Some n => Some (m <? n)%Z
  | _, _ =>
      match a, b with
      | VStr s, VStr t => Some (String.ltb s t)
      | VList k, VList l => list_less_than k l
      | _, _ => None
      end
  end.

(** [a - b]; [None] is a [TypeError]. *)
Definition minus (a b : value) : option Z :=
  match number a, number b with
  | Some m, Some n => Some (m - n)%Z
  | _, _ => None
  end.

(** What reading the console gives: a value and the lines not yet read, or
    the [EOFError] of [input] at the end of the input. *)
Inductive told (A : Type) :=
| Told (a : A) (unread : list string)
| EndOfInput.
Arguments Told {A} a unread.
Arguments EndOfInput {A}.

(** [os.getenv(name)] followed by [if not value]: an unset variable and an
    empty one are alike. *)
Definition getenv (environ : gmap string string) (name : string) : option string :=
  environ !! name.

Definition not_given (v : option string) : bool :=
  match v with
  | None => true
  | Some s => String.eqb s ""
  end.

Definition get_tokens_from_env (environ : gmap string string) : outcome (string * string) :=
  let vk_token := getenv environ "VK_TOKEN" in
  let yandex_token := getenv environ "YANDEX_TOKEN" in
  if not_given vk_token
  then Raised (mkExn ValueError
         ("VK_TOKEN не найден в переменных окружения!" +:+ nl +:+
          "Установите переменную: export VK_TOKEN='ваш_токен'" +:+ nl +:+
          "Или создайте файл .env с токенами"))
  else if not_given yandex_token
  then Raised (mkExn ValueError
         ("YANDEX_TOKEN не найден в переменных окружения!" +:+ nl +:+
          "Установите переменную: export YANDEX_TOKEN='ваш_токен'" +:+ nl +:+
          "Или создайте файл .env с токенами"))
  else Returned (default "" vk_token, default "" yandex_token).

(** What [main] does with the dictionary of the run, as an exit status:
    it reads [success]; on success it reads [folder_name], [json_file],
    [uploaded_photos] and [total_photos], compares the two counts and
    subtracts them when some photo failed; otherwise it reads [message]
    and leaves with [sys.exit(1)].  A missing key is a [KeyError] and an
    impossible comparison a [TypeError], both of which the last [except]
    clause turns into status 1. *)
Definition exit_status (result : gmap string value) : Z :=
  match result !! "success" with
  | Some flag =>
      if truthy flag
      then match result !! "folder_name", result !! "json_file",
                 result !! "uploaded_photos" with
           | Some _, Some _, Some uploaded =>
               match result !! "total_photos" with
               | Some total =>
                   match less_than uploaded total with
                   | Some true =>
                       match minus total uploaded with
                       | Some _ => 0
                       | None => 1
                       end
                   | Some false => 0
                   | None => 1
                   end
               | None => 1
               end
           | _, _, _ => 1
           end
      else 1
  | None => 1
  end%Z.

Section CommandLine.

Context {World : Type}.
Variable host : Host World.

(** The library functions on strings whose tables the program does not
    contain: [str.strip()], [str.isdigit()], and [int(s)] with [None] for
    its [ValueError]. *)
Variable strip : string → string.
Variable isdigit : string → bool.
Variable int : string → option Z.

Definition validate_and_clean_user_id (user_id : string) : outcome string :=
  let user_id := strip user_id in
  let user_id :=
    if startswith "https://vk.com/" user_id
    then replace_with_nothing "https://vk.com/" user_id
    else user_id in
  let user_id :=
    if startswith "id" user_id then slice_from 2 user_id
    else if startswith "@" user_id then slice_from 1 user_id
    else user_id in
  if isdigit user_id
  then Returned user_id
  else Raised (mkExn ValueError
         ("Некорректный ID пользователя: '" +:+ user_id +:+ "'" +:+ nl +:+
          "ID должен содержать только цифры или быть в формате 'id123456'" +:+ nl +:+
          "Примеры правильного ввода: 53688675, id53688675, @id53688675")).

(** The first [while True] loop of [get_user_input]: a line is read until
    one is a valid identifier. *)
Fixpoint ask_user_id (stdin : list string) : told string :=
  match stdin with
  | [] => EndOfInput
  | line :: unread =>
      let user_input := strip line in
      if String.eqb user_input "" then ask_user_id unread
      else match validate_and_clean_user_id user_input with
           | Returned user_id => Told user_id unread
           | _ => ask_user_id unread
           end
  end.

(** The second loop: a line is read until one is empty, which stands for
    5, or a positive number. *)
Fixpoint ask_count (stdin : list string) : told Z :=
  match stdin with
  | [] => EndOfInput
  | line :: unread =>
      let count_input := strip line in
      if String.eqb count_input "" then Told 5%Z unread
      else match int count_input with
           | Some count => if (0 <? count)%Z then Told count unread else ask_count unread
           | None => ask_count unread
           end
  end.

Definition get_user_input (stdin : list string) : told (string * Z) :=
  match ask_user_id stdin with
  | Told user_id unread =>
      match ask_count unread with
      | Told count unread' => Told (user_id, count) unread'
      | EndOfInput => EndOfInput
      end
  | EndOfInput => EndOfInput
  end.

(** [main]: the exit status of the process ([None] when the run exhausts
    its fuel), the lines left unread and the state of the services.  A
    [KeyboardInterrupt] is not modelled. *)
Definition main (fuel : nat) (environ : gmap string string) (stdin : list string)
    (s : State World) : option Z * list string * State World :=
  match get_tokens_from_env environ with
  | Returned (vk_token, yandex_token) =>
      match get_user_input stdin with
      | Told (user_id, count) unread =>
          let backup := mkVKPhotoBackup vk_token yandex_token in
          match backup_photos host backup fuel user_id count s with
          | (Returned result, s') => (Some (exit_status result), unread, s')
          | (Raised _, s') => (Some 1%Z, unread, s')
          | (OutOfFuel, s') => (None, unread, s')
          end
      | EndOfInput => (Some 1%Z, [], s)
      end
  | _ => (Some 1%Z, stdin, s)
  end.

End CommandLine.

(** A rendering of the three library functions on ASCII text, for running
    the command line on concrete input. *)
Module Latin.

Definition code (c : Ascii.ascii) : nat := Ascii.nat_of_ascii c.

(** The ASCII characters [str.strip()] removes. *)
Definition space (c : Ascii.ascii) : bool :=
  ((9 <=? code c) && (code c <=? 13)) || ((28 <=? code c) && (code c <=? 32)).

Fixpoint lstrip (s : string) : string :=
  match s with
  | EmptyString => EmptyString
  | String c s' => if space c then lstrip s' else s
  end.

Fixpoint rstrip (s : string) : string :=
  match s with
  | EmptyString => EmptyString
  | String c s' =>
      match rstrip s' with
      | EmptyString => if space c then EmptyString else String c EmptyString
      | t => String c t
      end
  end.

Definition strip (s : string) : string := rstrip (lstrip s).

Definition digit_char (c : Ascii.ascii) : bool := (48 <=? code c) && (code c <=? 57).

Fixpoint all_chars (P : Ascii.ascii → bool) (s : string) : bool :=
  match s with
  | EmptyString => true
  | String c s' => P c && all_chars P s'
  end.

Definition isdigit (s : string) : bool :=
  match s with
  | EmptyString => false
  | String _ _ => all_chars digit_char s
  end.

Fixpoint decimal (acc : Z) (s : string) : Z :=
  match s with
  | EmptyString => acc
  | String c s' => decimal (10 * acc + Z.of_nat (code c - 48)) s'
  end.

(** An optional sign and decimal digits. *)
Definition int (s : string) : option Z :=
  match s with
  | EmptyString => None
  | String c s' =>
      if code c =? 45 then (if isdigit s' then Some (- decimal 0 s')%Z else None)
      else if code c =? 43 then (if isdigit s' then Some (decimal 0 s') else None)
      else if isdigit s then Some (decimal 0 s) else None
  end.

End Latin.

(** ** Vocabulary of the further statements *)

(** The names [generate_filename] tries, in order: the plain name, then
    the fallback names for [counter] = 1, 2, ... *)
Definition candidate (base_filename : string) (photo_id : Z) (k : nat) : string :=
  match k with
  | O => base_filename +:+ ".jpg"
  | S _ => fallback_name base_filename photo_id (Z.of_nat k)
  end.

(** A photo comes no later than another in the order of the sort. *)
Definition larger_first (p q : Photo) : Prop :=
  (get_max_size q ≤ get_max_size p)%N.

(** A computation that sends no request of a given method. *)
Definition spares {World A} (meth : method)
    (m : State World → outcome A * State World) : Prop :=
  ∀ s, requests_of meth (trace (m s).2) = requests_of meth (trace s).

(** A computation that sends at most [n] requests of a given method. *)
Definition sends {World A} (meth : method) (n : nat)
    (m : State World → outcome A * State World) : Prop :=
  ∀ s, length (requests_of meth (trace (m s).2))
       ≤ length (requests_of meth (trace s)) + n.

(** A computation that cannot exhaust fuel. *)
Definition never_stalls {World A} (m : State World → outcome A * State World) : Prop :=
  ∀ s, (m s).1 ≠ OutOfFuel.

(** The requests of the three preliminary steps of [backup_photos]. *)
Definition vk_profile_request (self : VKPhotoBackup) : Request :=
  mkRequest GET (VK_API_BASE_URL +:+ "/account.getProfileInfo")
            [("access_token", vk_token self); ("v", VK_API_VERSION)] None.

Definition disk_probe_request (self : VKPhotoBackup) : Request :=
  mkRequest GET (YANDEX_API_BASE_URL +:+ "/resources") [("path", "/")]
            (Some ("OAuth " +:+ yandex_token self)).

Definition vk_photos_request (self : VKPhotoBackup) (user_id : string) (count : Z)
    : Request :=
  mkRequest GET (VK_API_BASE_URL +:+ "/photos.get")
            [("owner_id", user_id); ("album_id", "profile"); ("extended", "1");
             ("photo_sizes", "1"); ("count", pretty count);
             ("access_token", vk_token self); ("v", VK_API_VERSION)] None.

(** The request that asks the disk to fetch one photo. *)
Definition upload_request (self : VKPhotoBackup) (photo_url filename folder_name : string)
    : Request :=
  mkRequest POST (YANDEX_API_BASE_URL +:+ "/resources/upload")
            [("path", "/" +:+ folder_name +:+ "/" +:+ filename); ("url", photo_url)]
            (Some ("OAuth " +:+ yandex_token self)).

(** The dictionary returned by a run that uploaded something. *)
Definition success (total uploaded : nat) (folder_name json_filename : string)
    (entries : list Entry) : gmap string value :=
  <["success" := VBool true]>
  (<["total_photos" := VInt (Z.of_nat total)]>
  (<["uploaded_photos" := VInt (Z.of_nat uploaded)]>
  (<["folder_name" := VStr folder_name]>
  (<["json_file" := VStr json_filename]>
  (<["photos_info" := VList entries]> ∅))))).

(** The two shapes of the dictionaries [backup_photos] returns. *)
Definition failure_report (result : gmap string value) : Prop :=
  ∃ text, result = failure text.

Definition success_report (user_id : string) (result : gmap string value) : Prop :=
  ∃ (total uploaded : nat) (date : string) (entries : list Entry),
    1 ≤ uploaded ≤ total
    ∧ length entries = uploaded
    ∧ String.length date = 10
    ∧ result = success total uploaded ("VK_Photos_" +:+ user_id +:+ "_" +:+ date)
                       ("photos_info_" +:+ user_id +:+ ".json") entries.

(** ** Further simulated hosts

    Each one is the simulated host with one fault: a VK token that VK
    rejects, a disk token that the disk rejects, a profile that VK does not
    open, a disk without room for a folder, a directory that cannot be
    written. *)
Module Scenarios.

Definition vk_fault (code : Z) (text : string) : reply :=
  Answered (mkResponse 200 "" (mkVKData (Some (mkVKError (Some code) (Some text))) None)).

Definition expired_send (r : Request) (w : Simulation.Sim) : reply * Simulation.Sim :=
  if decide (req_url r = VK_API_BASE_URL +:+ "/account.getProfileInfo")
  then (vk_fault 5 "User authorization failed: invalid access_token (4).", w)
  else Simulation.sim_send r w.

Definition locked_send (r : Request) (w : Simulation.Sim) : reply * Simulation.Sim :=
  if decide (req_method r = GET
             ∧ req_url r = YANDEX_API_BASE_URL +:+ "/resources"
             ∧ Simulation.param "path" (req_params r) = "/")
  then (Simulation.answer 401 None, w)
  else Simulation.sim_send r w.

Definition private_send (r : Request) (w : Simulation.Sim) : reply * Simulation.Sim :=
  if decide (req_url r = VK_API_BASE_URL +:+ "/photos.get")
  then (vk_fault 30 "This profile is private", w)
  else Simulation.sim_send r w.

Definition full_send (r : Request) (w : Simulation.Sim) : reply * Simulation.Sim :=
  match req_method r with
  | PUT => (Simulation.answer 507 None, w)
  | _ => Simulation.sim_send r w
  end.

Definition with_send (send : Request → Simulation.Sim → reply * Simulation.Sim)
    : Host Simulation.Sim :=
  mkHost Simulation.Sim send (λ _ _ w, (None, w)) Simulation.sim_clock Simulation.moscow.

Definition expired_host : Host Simulation.Sim := with_send expired_send.
Definition locked_host : Host Simulation.Sim := with_send locked_send.
Definition private_host : Host Simulation.Sim := with_send private_send.
Definition full_host : Host Simulation.Sim := with_send full_send.

Definition readonly_host : Host Simulation.Sim :=
  mkHost Simulation.Sim Simulation.sim_send
         (λ _ _ w, (Some "[Errno 13] Permission denied", w))
         Simulation.sim_clock Simulation.moscow.

End Scenarios.

(** What holds of a manifest in the making: its file names are pairwise
    distinct, each is in the tracking set and ends with the extension, and
    each entry stands for a photo of the run whose largest variant has the
    entry's tag and was requested for upload under the entry's name. *)
Definition manifest_inv {World : Type} (self : VKPhotoBackup) (photos : list Photo)
    (folder_name : string) (l : Locals) (s : State World) : Prop :=
  NoDup (file_name <$> photos_info l)
  ∧ ∀ entry, entry ∈ photos_info l →
      file_name entry ∈ used_filenames l
      ∧ ends_with ".jpg" (file_name entry)
      ∧ ∃ photo url,
          photo ∈ photos
          ∧ get_largest_photo_size photo = Returned (url, size_tag entry)
          ∧ Sent (upload_request self url (file_name entry) folder_name) ∈ trace s.

(** ** Vocabulary of the statements on the command line *)

Definition first_char (s : string) : option Ascii.ascii :=
  match s with
  | EmptyString => None
  | String c _ => Some c
  end.

Fixpoint last_char (s : string) : option Ascii.ascii :=
  match s with
  | EmptyString => None
  | String c s' => match s' with EmptyString => Some c | String _ _ => last_char s' end
  end.

(** The printable ASCII characters other than the blank. *)
Definition visible (c : Ascii.ascii) : bool :=
  (33 <=? Latin.code c) && (Latin.code c <=? 126).

(** What the statements on the command line take from Python's
    [str.strip] and [str.isdigit]: a string that begins and ends with a
    visible ASCII character has nothing to strip; a non-empty string of
    ASCII digits is a string of digits; a string of digits is not empty,
    its ASCII characters are among 0 to 9, and it has nothing to strip. *)
Record StrLaws (strip : string → string) (isdigit : string → bool) : Prop := {
  strip_visible : ∀ s a b,
    first_char s = Some a → last_char s = Some b →
    visible a = true → visible b = true → strip s = s;
  isdigit_ascii : ∀ s, Latin.isdigit s = true → isdigit s = true;
  isdigit_chars : ∀ s,
    isdigit s = true →
    s ≠ "" ∧ Latin.all_chars (λ c, (128 <=? Latin.code c) || Latin.digit_char c) s = true;
  isdigit_strip : ∀ s, isdigit s = true → strip s = s
}.

(** * Properties *)

(** ** The definitions at work *)

Example civil_from_days_epoch : civil_from_days 0 = (1970, 1, 1)%Z.
Proof. reflexivity. Qed.

Example civil_from_days_leap_day : civil_from_days 11016 = (2000, 2, 29)%Z.
Proof. reflexivity. Qed.

Example civil_from_days_before_epoch : civil_from_days (-1) = (1969, 12, 31)%Z.
Proof. reflexivity. Qed.

Example fromtimestamp_local_date :
  fromtimestamp Simulation.moscow 1609448400 = inr (2021, 1, 1)%Z
  ∧ fromtimestamp (λ _, 0%Z) 1609448400 = inr (2020, 12, 31)%Z.
Proof. split; vm_compute; reflexivity. Qed.

Example fromtimestamp_out_of_range :
  fromtimestamp (λ _, 0%Z) 253402300800
  = inl (mkExn ValueError "year 10000 is out of range").
Proof. vm_compute. reflexivity. Qed.

Example largest_of_three :
  get_largest_photo_size
    (Simulation.photo 1 0 0
       [Simulation.variant 75 50 "s"; Simulation.variant 604 403 "x";
        Simulation.variant 403 604 "y"])
  = Returned ("https://vk.example/x.jpg", "x").
Proof. reflexivity. Qed.

Example largest_without_dimensions :
  get_largest_photo_size
    (Simulation.photo 1 0 0 [Simulation.variant 0 0 "s"; Simulation.variant 0 0 "m"])
  = Returned ("https://vk.example/s.jpg", "s").
Proof. reflexivity. Qed.

Example largest_of_none :
  get_largest_photo_size (mkPhoto (Some 1%Z) None None None)
  = Raised (mkExn ValueError "Размеры фотографии не найдены").
Proof. reflexivity. Qed.

Example filename_ladder :
  let p := Simulation.photo 7 1600000000 5 [] in
  (allocate Simulation.moscow 4 [p] [p; p; p] ∅).1
  = [Returned "5.jpg"; Returned "5_7.jpg"; Returned "5_7_2.jpg"].
Proof. vm_compute. reflexivity. Qed.

Example sort_photos_is_stable :
  let p w id := Simulation.photo id 0 0 [Simulation.variant w 1 "s"] in
  sort_photos [p 10%N 1%Z; p 30%N 2%Z; p 10%N 3%Z; p 30%N 4%Z]
  = [p 30%N 2%Z; p 30%N 4%Z; p 10%N 1%Z; p 10%N 3%Z].
Proof. reflexivity. Qed.

(** ** Strings *)

Lemma string_app_nil (b : string) : "" +:+ b = b.
Proof. reflexivity. Qed.

Lemma string_app_cons (c : Ascii.ascii) (a b : string) :
  String c a +:+ b = String c (a +:+ b).
Proof. reflexivity. Qed.

Lemma string_app_length (a b : string) :
  String.length (a +:+ b) = String.length a + String.length b.
Proof.
  induction a as [|c a IH]; [done|].
  rewrite string_app_cons. simpl. by rewrite IH.
Qed.

Lemma string_app_assoc (a b c : string) : (a +:+ b) +:+ c = a +:+ (b +:+ c).
Proof.
  induction a as [|x a IH]; [done|].
  rewrite !string_app_cons. by rewrite IH.
Qed.

Lemma string_app_inj_r (s a b : string) : a +:+ s = b +:+ s → a = b.
Proof.
  revert b. induction a as [|x a IH]; intros [|y b] Heq;
    rewrite ?string_app_cons, ?string_app_nil in Heq.
  - done.
  - apply (f_equal String.length) in Heq. simpl in Heq.
    rewrite string_app_length in Heq. lia.
  - apply (f_equal String.length) in Heq. simpl in Heq.
    rewrite string_app_length in Heq. lia.
  - injection Heq as -> Heq. f_equal. by apply IH.
Qed.

(** ** Calendar dates *)

Lemma civil_from_days_bounds days y m d :
  civil_from_days days = (y, m, d) → (1 ≤ m ≤ 12 ∧ 1 ≤ d ≤ 31)%Z.
Proof.
  unfold civil_from_days. intros [= _ <- <-].
  set (z := (days + 719468)%Z).
  set (doe := (z - z `div` 146097 * 146097)%Z).
  assert (0 ≤ doe ≤ 146096)%Z as Hdoe by (unfold doe; Z.div_mod_to_equations; lia).
  clearbody doe. clear z.
  set (yoe := ((doe - doe `div` 1460 + doe `div` 36524 - doe `div` 146096) `div` 365)%Z).
  set (doy := (doe - (365 * yoe + yoe `div` 4 - yoe `div` 100))%Z).
  assert (0 ≤ doy ≤ 365)%Z as Hdoy by (unfold doy, yoe; Z.div_mod_to_equations; lia).
  clearbody doy.
  set (mp := ((5 * doy + 2) `div` 153)%Z).
  assert (0 ≤ mp ≤ 11)%Z by (unfold mp; Z.div_mod_to_equations; lia).
  assert (1 ≤ doy - (153 * mp + 2) `div` 5 + 1 ≤ 31)%Z
    by (unfold mp; Z.div_mod_to_equations; lia).
  split; [|done].
  destruct (mp <? 10)%Z eqn:E; [apply Z.ltb_lt in E|apply Z.ltb_ge in E]; lia.
Qed.

Lemma digit_inj (a b : Z) : digit a = digit b → (a `mod` 10 = b `mod` 10)%Z.
Proof.
  unfold digit. intros Heq. apply (f_equal Ascii.nat_of_ascii) in Heq.
  assert (0 ≤ a `mod` 10 < 10)%Z by (apply Z.mod_pos_bound; lia).
  assert (0 ≤ b `mod` 10 < 10)%Z by (apply Z.mod_pos_bound; lia).
  rewrite !Ascii.nat_ascii_embedding in Heq by lia. lia.
Qed.

(** Two dates that [datetime] can hold are rendered alike only when they
    are the same date. *)
Lemma strftime_ymd_inj (y m d y' m' d' : Z) :
  (0 ≤ y ≤ 9999 → 0 ≤ m ≤ 99 → 0 ≤ d ≤ 99 →
   0 ≤ y' ≤ 9999 → 0 ≤ m' ≤ 99 → 0 ≤ d' ≤ 99 →
   strftime_ymd (y, m, d) = strftime_ymd (y', m', d') →
   (y, m, d) = (y', m', d'))%Z.
Proof.
  intros Hy Hm Hd Hy' Hm' Hd'.
  cbv [strftime_ymd pad4 pad2 String.append].
  intros [= Hy1 Hy2 Hy3 Hy4 Hm1 Hm2 Hd1 Hd2].
  apply digit_inj in Hy1, Hy2, Hy3, Hy4, Hm1, Hm2, Hd1, Hd2.
  assert (y = y') by (Z.div_mod_to_equations; lia).
  assert (m = m') by (Z.div_mod_to_equations; lia).
  assert (d = d') by (Z.div_mod_to_equations; lia).
  by subst.
Qed.

Lemma fromtimestamp_strftime_inj utc_offset ts ts' date date' :
  fromtimestamp utc_offset ts = inr date →
  fromtimestamp utc_offset ts' = inr date' →
  strftime_ymd date = strftime_ymd date' → date = date'.
Proof.
  unfold fromtimestamp.
  destruct (civil_from_days _) as [[y m] d] eqn:Hc.
  destruct (civil_from_days ((ts' + _) `div` _)) as [[y' m'] d'] eqn:Hc'.
  apply civil_from_days_bounds in Hc, Hc'.
  do 2 case_bool_decide; try done. intros [= <-] [= <-].
  apply strftime_ymd_inj; lia.
Qed.

(** ** The size selector *)

Lemma largest_step_inv first seen acc size :
  largest_inv first seen acc →
  largest_inv first (seen ++ [size]) (largest_step acc size).
Proof.
  intros [Hle Hbest]. unfold largest_step.
  destruct (acc.1 <? total_pixels size)%N eqn:Hlt.
  - apply N.ltb_lt in Hlt. split; simpl.
    + intros s [Hs| ->%list_elem_of_singleton]%elem_of_app; [|lia].
      specialize (Hle s Hs). lia.
    + right. split; [lia|]. exists (length seen). split_and!.
      * by rewrite list_lookup_middle.
      * done.
      * intros j s Hj Hs. rewrite lookup_app_l in Hs by done.
        apply list_elem_of_lookup_2 in Hs. specialize (Hle s Hs). lia.
  - apply N.ltb_ge in Hlt. split.
    + intros s [Hs| ->%list_elem_of_singleton]%elem_of_app; [by apply Hle | done].
    + destruct Hbest as [?|(Hpos & i & Hi & Harea & Hfirst)]; [by left|].
      right. split; [done|]. exists i. split_and!.
      * by apply lookup_app_l_Some.
      * done.
      * intros j s Hj Hs. apply (Hfirst j s Hj).
        rewrite lookup_app_l in Hs; [done|].
        apply lookup_lt_Some in Hi. lia.
Qed.

Lemma largest_fold_inv first rest seen acc :
  largest_inv first seen acc →
  largest_inv first (seen ++ rest) (fold_left largest_step rest acc).
Proof.
  revert seen acc. induction rest as [|size rest IH]; intros seen acc Hinv; simpl.
  - by rewrite app_nil_r.
  - rewrite (cons_middle size seen rest), app_assoc.
    by apply IH, largest_step_inv.
Qed.

(** ** Sets of names *)

Lemma size_add_le (x : string) (X : gset string) : size ({[ x ]} ∪ X) ≤ size X + 1.
Proof.
  rewrite size_union_alt, size_singleton.
  assert (size (X ∖ {[ x ]}) ≤ size X) by (apply subseteq_size; set_solver).
  lia.
Qed.

(** ** The retry loop *)

Section AllocatorFacts.

Variable utc_offset : Z → Z.

Lemma fallback_name_inj base id (c1 c2 : Z) :
  fallback_name base id c1 = fallback_name base id c2 → c1 = c2.
Proof.
  unfold fallback_name. intros Heq.
  repeat case_decide; subst; try done;
    do 3 apply (inj (String.append _)) in Heq.
  - rewrite string_app_cons in Heq. discriminate Heq.
  - rewrite string_app_cons in Heq. discriminate Heq.
  - apply (inj (String.append _)) in Heq.
    apply string_app_inj_r in Heq. by apply (inj pretty) in Heq.
Qed.

Lemma plain_name_not_fallback base id (c : Z) :
  base +:+ ".jpg" ≠ fallback_name base id c.
Proof.
  unfold fallback_name. intros Heq.
  case_decide; apply (inj (String.append _)) in Heq;
    rewrite string_app_cons in Heq; discriminate Heq.
Qed.

Lemma fallback_name_shape base id c :
  framed_by base ".jpg" (fallback_name base id c).
Proof.
  unfold fallback_name. case_decide.
  - by exists ("_" +:+ pretty id).
  - exists ("_" +:+ pretty id +:+ "_" +:+ pretty c).
    by rewrite !string_app_assoc.
Qed.

(** Whatever the loop returns is free and is the base name, a qualifier and
    the extension. *)
Lemma retry_sound fuel base id counter filename used name :
  framed_by base ".jpg" filename →
  retry fuel base id counter filename used = Some name →
  (name ∉ used) ∧ framed_by base ".jpg" name.
Proof.
  revert counter filename. induction fuel as [|fuel IH]; intros counter filename Hshape; simpl.
  - done.
  - case_decide as Hin.
    + apply IH, fallback_name_shape.
    + intros [= <-]. done.
Qed.

(** The loop ends: [rest] holds the names of the set that can still be met;
    each turn of the loop removes the one just tested. *)
Lemma retry_total fuel base id counter filename (used rest : gset string) :
  size rest < fuel →
  (filename ∈ used → filename ∈ rest) →
  (∀ c, (counter ≤ c)%Z → fallback_name base id c ∈ used → fallback_name base id c ∈ rest) →
  (∀ c, (counter ≤ c)%Z → filename ≠ fallback_name base id c) →
  is_Some (retry fuel base id counter filename used).
Proof.
  revert counter filename rest.
  induction fuel as [|fuel IH]; intros counter filename rest Hfuel Hfile Hnext Hnew; simpl.
  - lia.
  - case_decide as Hin; [|by eexists].
    apply (IH _ _ (rest ∖ {[ filename ]})).
    + assert (size rest = size (rest ∖ {[ filename ]}) + 1) as Hsz.
      { rewrite (size_difference rest {[ filename ]}).
        - rewrite size_singleton.
          assert (size rest ≠ 0); [|lia].
          intros Hz%size_empty_iff. specialize (Hfile Hin). set_solver.
        - specialize (Hfile Hin). set_solver. }
      lia.
    + intros Hc. apply elem_of_difference. split.
      * apply Hnext; [lia | done].
      * rewrite elem_of_singleton. intros Heq. by apply (Hnew counter); [lia|].
    + intros c Hc Hcu. apply elem_of_difference. split.
      * apply Hnext; [lia | done].
      * rewrite elem_of_singleton. intros Heq. by apply (Hnew c); [lia|].
    + intros c Hc Heq%fallback_name_inj. lia.
Qed.

Lemma retry_returns fuel base id (used : gset string) :
  size used < fuel →
  ∃ name, retry fuel base id 1 (base +:+ ".jpg") used = Some name
          ∧ (name ∉ used) ∧ framed_by base ".jpg" name.
Proof.
  intros Hfuel.
  destruct (retry_total fuel base id 1 (base +:+ ".jpg") used used) as [name Hname];
    [done | done | done | intros; apply plain_name_not_fallback |].
  exists name. split; [done|].
  eapply retry_sound; [|done]. exists "". done.
Qed.

(** ** One call of [generate_filename] *)

Lemma framed_ends_with prefix suffix s : framed_by prefix suffix s → ends_with suffix s.
Proof. intros [t ->]. exists (prefix +:+ t). by rewrite string_app_assoc. Qed.

(** The three ways a call can end. *)
Lemma generate_filename_cases fuel o :
  match base_filename_of utc_offset (obj_photo o) (obj_photos o) with
  | inl e => generate_filename utc_offset fuel o = (Raised e, o)
  | inr base =>
      (generate_filename utc_offset fuel o = (OutOfFuel, o)
       ∧ fuel ≤ size (obj_used_filenames o))
      ∨ ∃ name,
          generate_filename utc_offset fuel o
          = (Returned name,
             mkObjects (obj_photo o) (obj_photos o) ({[ name ]} ∪ obj_used_filenames o))
          ∧ (name ∉ obj_used_filenames o) ∧ framed_by base ".jpg" name
  end.
Proof.
  unfold generate_filename.
  destruct (base_filename_of _ _ _) as [e|base]; [done|].
  destruct (retry _ _ _ _ _ _) as [name|] eqn:Hretry.
  - right. exists name. split; [done|].
    eapply retry_sound; [|done]. by exists "".
  - left. split; [done|].
    destruct (decide (size (obj_used_filenames o) < fuel)) as [Hlt|]; [|lia].
    destruct (retry_returns fuel base (default 0%Z (photo_id (obj_photo o))) _ Hlt)
      as (name & Hname & _).
    congruence.
Qed.

Lemma base_filename_raises photo photos e :
  base_filename_of utc_offset photo photos = inl e →
  1 < length (filter (λ p, likes_of p = likes_of photo) photos)
  ∧ fromtimestamp utc_offset (default 0%Z (photo_date photo)) = inl e.
Proof.
  unfold base_filename_of. case_decide; [|done].
  destruct (fromtimestamp _ _); [|done]. by intros [= ->].
Qed.

Lemma base_filename_dated photo photos date :
  1 < length (filter (λ p, likes_of p = likes_of photo) photos) →
  fromtimestamp utc_offset (default 0%Z (photo_date photo)) = inr date →
  base_filename_of utc_offset photo photos
  = inr (pretty (likes_of photo) +:+ "_" +:+ strftime_ymd date).
Proof.
  intros Hlen Hdate. unfold base_filename_of.
  case_decide; [|done]. by rewrite Hdate.
Qed.

Lemma generate_filename_used fuel o :
  obj_used_filenames (generate_filename utc_offset fuel o).2
  = match (generate_filename utc_offset fuel o).1 with
    | Returned name => {[ name ]} ∪ obj_used_filenames o
    | _ => obj_used_filenames o
    end.
Proof.
  pose proof (generate_filename_cases fuel o) as H.
  destruct (base_filename_of _ _ _); [by rewrite H|].
  destruct H as [[-> _]|(name & -> & _)]; done.
Qed.

Lemma generate_filename_fresh fuel o name :
  (generate_filename utc_offset fuel o).1 = Returned name →
  (name ∉ obj_used_filenames o) ∧ ends_with ".jpg" name.
Proof.
  pose proof (generate_filename_cases fuel o) as H.
  destruct (base_filename_of _ _ _); [by rewrite H|].
  destruct H as [[-> _]|(name' & -> & Hfresh & Hshape)]; [done|].
  intros [= <-]. eauto using framed_ends_with.
Qed.

Lemma generate_filename_enough_fuel fuel o :
  size (obj_used_filenames o) < fuel →
  (generate_filename utc_offset fuel o).1 ≠ OutOfFuel.
Proof.
  intros Hfuel. pose proof (generate_filename_cases fuel o) as H.
  destruct (base_filename_of _ _ _); [by rewrite H|].
  destruct H as [[_ ?]|(name & -> & _)]; [lia | done].
Qed.

(** ** A run of the allocator *)

Lemma allocate_cons fuel photos photo calls used :
  allocate utc_offset fuel photos (photo :: calls) used
  = let r := generate_filename utc_offset fuel (mkObjects photo photos used) in
    let rest := allocate utc_offset fuel photos calls (obj_used_filenames r.2) in
    (r.1 :: rest.1, rest.2).
Proof.
  simpl. destruct (generate_filename _ _ _) as [r o].
  by destruct (allocate _ _ _ _ _).
Qed.

Lemma elem_of_returned {A} (outs : list (outcome A)) (a : A) :
  a ∈ returned outs ↔ Returned a ∈ outs.
Proof.
  unfold returned. rewrite list_elem_of_omap. split.
  - intros ([b| |] & Hin & Heq); naive_solver.
  - intros Hin. by exists (Returned a).
Qed.

Lemma allocate_spec fuel photos calls used :
  let run := allocate utc_offset fuel photos calls used in
  NoDup (returned run.1)
  ∧ (∀ name, name ∈ returned run.1 → (name ∉ used) ∧ ends_with ".jpg" name)
  ∧ run.2 = list_to_set (returned run.1) ∪ used
  ∧ (size used + length calls < fuel → OutOfFuel ∉ run.1).
Proof.
  revert used. induction calls as [|photo calls IH]; intros used.
  - simpl. split_and!; [constructor | | |]; set_solver.
  - rewrite allocate_cons. cbv zeta.
    pose proof (generate_filename_used fuel (mkObjects photo photos used)) as Hused.
    pose proof (generate_filename_fresh fuel (mkObjects photo photos used)) as Hnew.
    pose proof (generate_filename_enough_fuel fuel (mkObjects photo photos used)) as Hfl.
    destruct (generate_filename utc_offset fuel (mkObjects photo photos used)) as [r o].
    simpl in Hused, Hnew, Hfl |- *.
    destruct (IH (obj_used_filenames o)) as (Hnd & Hfresh & Hfinal & Hfuel).
    rewrite Hfinal. clear Hfinal IH. rewrite Hused in *. clear Hused.
    destruct r as [name| |]; simpl.
    + destruct (Hnew name eq_refl) as [Hnotin Hjpg].
      pose proof (size_add_le name used) as Hsz.
      split_and!.
      * constructor; [|done]. intros Hin%Hfresh. set_solver.
      * intros name' [->|Hin%Hfresh]%elem_of_cons; [done|].
        split; [set_solver | tauto].
      * set_solver.
      * intros Hlt [Heq|Hin]%elem_of_cons; [done|].
        revert Hin. apply Hfuel. lia.
    + split_and!; [done | done | done |].
      intros Hlt [Heq|Hin]%elem_of_cons; [done|].
      revert Hin. apply Hfuel. lia.
    + split_and!; [done | done | done |].
      intros Hlt _. apply Hfl; [lia | done].
Qed.

(** The call made for the photo at position [i] of a run. *)
Lemma allocate_lookup fuel photos calls used i photo :
  calls !! i = Some photo →
  ∃ used_i,
    size used_i ≤ size used + i
    ∧ (allocate utc_offset fuel photos calls used).1 !! i
      = Some (generate_filename utc_offset fuel (mkObjects photo photos used_i)).1.
Proof.
  revert used i. induction calls as [|photo' calls IH]; intros used i Hi; [done|].
  rewrite allocate_cons. cbv zeta. destruct i as [|i]; simpl in Hi.
  - injection Hi as ->. exists used. split; [lia | done].
  - destruct (IH (obj_used_filenames
        (generate_filename utc_offset fuel (mkObjects photo' photos used)).2) i Hi)
      as (used_i & Hsz & Hout).
    exists used_i. split; [|done].
    rewrite generate_filename_used in Hsz. simpl in Hsz.
    destruct (generate_filename _ _ _).1 as [name| |]; try lia.
    pose proof (size_add_le name used). lia.
Qed.

Lemma returned_lookup_lt {A} (outs : list (outcome A)) i j (a b : A) :
  NoDup (returned outs) → i < j →
  outs !! i = Some (Returned a) → outs !! j = Some (Returned b) → a ≠ b.
Proof.
  revert i j. induction outs as [|r outs IH]; intros i j Hnd Hlt Hi Hj; [done|].
  destruct j as [|j]; [lia|]. simpl in Hj. destruct i as [|i]; simpl in Hi.
  - injection Hi as ->. simpl in Hnd. apply NoDup_cons in Hnd as [Hnotin _].
    intros ->. apply Hnotin, elem_of_returned.
    by eapply list_elem_of_lookup_2.
  - apply (IH i j); [|lia|done..].
    destruct r; simpl in Hnd; [by apply NoDup_cons in Hnd as [_ ?] | done..].
Qed.

Lemma returned_lookup_ne {A} (outs : list (outcome A)) i j (a b : A) :
  NoDup (returned outs) → i ≠ j →
  outs !! i = Some (Returned a) → outs !! j = Some (Returned b) → a ≠ b.
Proof.
  intros Hnd Hne Hi Hj. destruct (decide (i < j)).
  - by eapply returned_lookup_lt.
  - apply not_eq_sym. eapply (returned_lookup_lt outs j i); [done|lia|done..].
Qed.

End AllocatorFacts.

(** ** Photos that share a likes count *)

Lemma filter_sublist_mono {A} (P : A → Prop) `{!∀ x, Decision (P x)} (l k : list A) :
  sublist l k → sublist (filter P l) (filter P k).
Proof.
  induction 1 as [|x l k _ IH|x l k _ IH].
  - done.
  - rewrite !filter_cons. case_decide; [by constructor | done].
  - rewrite filter_cons. case_decide; [by constructor | done].
Qed.

Lemma filter_two {A} (P : A → Prop) `{!∀ x, Decision (P x)} (l : list A) i j a b :
  i < j → l !! i = Some a → l !! j = Some b → P a → P b →
  1 < length (filter P l).
Proof.
  revert i j. induction l as [|x l IH]; intros i j Hlt Hi Hj Ha Hb; [done|].
  destruct j as [|j]; [lia|]. simpl in Hj.
  rewrite filter_cons. destruct i as [|i]; simpl in Hi.
  - injection Hi as ->. rewrite decide_True by done. simpl.
    assert (b ∈ filter P l) as Hin.
    { apply list_elem_of_filter. split; [done|]. by eapply list_elem_of_lookup_2. }
    destruct (filter P l); [by apply elem_of_nil in Hin | simpl; lia].
  - assert (1 < length (filter P l)) by (apply (IH i j); [lia|done..]).
    case_decide; simpl; lia.
Qed.

Lemma shared_likes (photos calls : list Photo) i j p q :
  sublist calls photos → i ≠ j →
  calls !! i = Some p → calls !! j = Some q →
  likes_of p = likes_of q →
  1 < length (filter (λ x, likes_of x = likes_of p) photos).
Proof.
  intros Hsub Hne Hi Hj Hlikes.
  eapply Nat.lt_le_trans; [|eapply sublist_length, filter_sublist_mono, Hsub].
  destruct (decide (i < j)).
  - by apply (filter_two _ calls i j p q).
  - apply (filter_two _ calls j i q p); [lia|done..].
Qed.


(** ** The client of the two services *)

Section ClientFacts.

Context {World : Type}.
Variable host : Host World.
Variable self : VKPhotoBackup.

Lemma manifests_app (t1 t2 : list event) :
  manifests (t1 ++ t2) = manifests t1 ++ manifests t2.
Proof. apply omap_app. Qed.

Lemma quiet_ret {A} (a : A) : quiet (ret (World:=World) a).
Proof. done. Qed.

Lemma quiet_raise {A} (e : exn) : quiet (raise (World:=World) (A:=A) e).
Proof. done. Qed.

Lemma quiet_bind {A B} (m : M A) (k : A → M B) :
  quiet m → (∀ a, quiet (k a)) → quiet (bind (World:=World) m k).
Proof.
  intros Hm Hk s. unfold bind. specialize (Hm s).
  destruct (m s) as [[a|e|] s']; simpl in *; [|done..].
  by rewrite Hk.
Qed.

Lemma quiet_try_except {A} (m : M A) catches (handler : exn → M A) :
  quiet m → (∀ e, quiet (handler e)) → quiet (try_except (World:=World) m catches handler).
Proof.
  intros Hm Hh s. unfold try_except. specialize (Hm s).
  destruct (m s) as [[a|e|] s']; simpl in *; [done| |done].
  destruct (catches e); [by rewrite Hh | done].
Qed.

Lemma quiet_request r : quiet (request host r).
Proof.
  intros s. unfold request. destruct (send host r (world s)) as [[response|text] w];
    simpl; by rewrite manifests_app, app_nil_r.
Qed.

Lemma quiet_raise_for_status response : quiet (raise_for_status (World:=World) response).
Proof. unfold raise_for_status. by case_bool_decide. Qed.

Ltac quiet_step :=
  first
    [ apply quiet_ret | apply quiet_raise | apply quiet_request
    | apply quiet_raise_for_status
    | apply quiet_bind; [|intros ?] | apply quiet_try_except; [|intros ?]
    | case_decide | case_match ].

Ltac solve_quiet := unfold mbind, M_bind, session_request, requests_get; repeat quiet_step.

Lemma quiet_check_vk_token_validity : quiet (check_vk_token_validity host self).
Proof. unfold check_vk_token_validity. solve_quiet. Qed.

Lemma quiet_check_yandex_disk_availability :
  quiet (check_yandex_disk_availability host self).
Proof. unfold check_yandex_disk_availability. solve_quiet. Qed.

Lemma quiet_get_profile_photos user_id count :
  quiet (get_profile_photos host self user_id count).
Proof. unfold get_profile_photos. solve_quiet. Qed.

Lemma quiet_check_folder_exists name : quiet (check_folder_exists host self name).
Proof. unfold check_folder_exists. solve_quiet. Qed.

Lemma quiet_create_yandex_folder name : quiet (create_yandex_folder host self name).
Proof.
  unfold create_yandex_folder, mbind, M_bind.
  apply quiet_bind; [apply quiet_check_folder_exists|].
  intros []; solve_quiet.
Qed.

Lemma quiet_upload_photo_to_yandex url filename folder :
  quiet (upload_photo_to_yandex host self url filename folder).
Proof. unfold upload_photo_to_yandex. solve_quiet. Qed.

Lemma quiet_today : quiet (today host).
Proof. intros s. unfold today. by destruct (fromtimestamp _ _). Qed.

Lemma quiet_process_photo fuel photos folder photo l :
  quiet (process_photo host self fuel photos folder photo l).
Proof.
  intros s. unfold process_photo.
  destruct (get_largest_photo_size photo) as [[url tag]| |]; [|done..].
  destruct (generate_filename _ _ _) as [[name| |] o]; [|done..].
  pose proof (quiet_upload_photo_to_yandex url name folder s) as Hq.
  by destruct (upload_photo_to_yandex _ _ _ _ _ _) as [[?| |] ?].
Qed.

Lemma quiet_upload_loop fuel photos folder todo l :
  quiet (upload_loop host self fuel photos folder todo l).
Proof.
  revert l. induction todo as [|photo todo IH]; intros l; simpl.
  - apply quiet_ret.
  - apply quiet_bind; [apply quiet_process_photo | done].
Qed.

(** *** Requests to the disk *)

Lemma check_folder_exists_spec name s :
  let a := send host (folder_request self GET name) (world s) in
  check_folder_exists host self name s
  = (Returned match a.1 with
              | Answered response => bool_decide (status_code response = 200%Z)
              | Unreachable _ => false
              end,
     mkState a.2 (trace s ++ [Sent (folder_request self GET name)])).
Proof.
  unfold check_folder_exists, try_except, mbind, M_bind, bind, session_request, request.
  fold (folder_request self GET name).
  by destruct (send host _ (world s)) as [[response|text] w].
Qed.

Lemma create_yandex_folder_spec name s :
  let c := check_folder_exists host self name s in
  let a := send host (folder_request self PUT name) (world c.2) in
  let s' := mkState a.2 (trace c.2 ++ [Sent (folder_request self PUT name)]) in
  create_yandex_folder host self name s
  = match c.1 with
    | Returned true => (Returned (Some true), c.2)
    | _ =>
        match a.1 with
        | Answered response =>
            if decide (status_code response = 201%Z) then (Returned (Some true), s')
            else if decide (status_code response = 409%Z) then (Returned (Some true), s')
            else if bool_decide (400 ≤ status_code response < 600)%Z
            then (Raised (mkExn RequestException (http_error_text response)), s')
            else (Returned None, s')
        | Unreachable text => (Raised (mkExn RequestException text), s')
        end
    end.
Proof.
  cbv zeta. unfold create_yandex_folder, mbind, M_bind, bind at 1.
  rewrite check_folder_exists_spec. cbv zeta. simpl.
  destruct (match (send host (folder_request self GET name) (world s)).1 with
            | Answered response => bool_decide (status_code response = 200%Z)
            | Unreachable _ => false
            end); [done|].
  unfold bind, session_request, request. fold (folder_request self PUT name). simpl.
  destruct (send host (folder_request self PUT name) _) as [[response|text] w]; [|done].
  simpl. unfold raise_for_status.
  repeat (case_decide || case_bool_decide); simpl; try done; lia.
Qed.

(** What an upload request comes to: success on 202, an exception on a
    status from 400 to 599 and when the transport fails, and a return
    without value on any other status. *)
Lemma upload_photo_to_yandex_spec url filename folder s :
  let r := mkRequest POST (YANDEX_API_BASE_URL +:+ "/resources/upload")
             [("path", "/" +:+ folder +:+ "/" +:+ filename); ("url", url)]
             (Some ("OAuth " +:+ yandex_token self)) in
  let a := send host r (world s) in
  upload_photo_to_yandex host self url filename folder s
  = (match a.1 with
     | Answered response =>
         if decide (status_code response = 202%Z) then Returned (Some true)
         else if bool_decide (400 ≤ status_code response < 600)%Z
         then Raised (mkExn RequestException (http_error_text response))
         else Returned None
     | Unreachable text => Raised (mkExn RequestException text)
     end,
     mkState a.2 (trace s ++ [Sent r])).
Proof.
  cbv zeta. unfold upload_photo_to_yandex, mbind, M_bind, bind, session_request, request.
  destruct (send host _ (world s)) as [[response|text] w]; [|done].
  simpl. case_decide; [done|].
  unfold raise_for_status. by case_bool_decide.
Qed.

(** *** The upload loop *)

Lemma request_not_out_of_fuel r s : (request host r s).1 ≠ OutOfFuel.
Proof.
  unfold request. by destruct (send host r (world s)) as [[response|text] w].
Qed.

Lemma upload_not_out_of_fuel url filename folder s :
  (upload_photo_to_yandex host self url filename folder s).1 ≠ OutOfFuel.
Proof.
  unfold upload_photo_to_yandex, session_request, mbind, M_bind, bind.
  pose proof (request_not_out_of_fuel
    (mkRequest POST (YANDEX_API_BASE_URL +:+ "/resources/upload")
       [("path", "/" +:+ folder +:+ "/" +:+ filename); ("url", url)]
       (Some ("OAuth " +:+ yandex_token self))) s) as Hreq.
  destruct (request _ _ _) as [[response|e|] s']; [|done..].
  case_decide; [done|].
  unfold raise_for_status. by case_bool_decide.
Qed.

Lemma process_photo_cases fuel photos folder photo l s :
  size (used_filenames l) < fuel →
  ∃ l1,
    (process_photo host self fuel photos folder photo l s).1 = Returned l1
    ∧ size (used_filenames l1) ≤ size (used_filenames l) + 1
    ∧ (photo_failed host self fuel photos folder photo l l1 s
       ∨ photo_uploaded host self fuel photos folder photo l l1 s).
Proof.
  intros Hfuel. unfold process_photo, photo_failed, photo_uploaded.
  destruct (get_largest_photo_size photo) as [[url tag]|e|] eqn:Hsize.
  - pose proof (generate_filename_enough_fuel (host_utc_offset host) fuel
      (mkObjects photo photos (used_filenames l)) Hfuel) as Hgen.
    pose proof (generate_filename_used (host_utc_offset host) fuel
      (mkObjects photo photos (used_filenames l))) as Hused.
    destruct (generate_filename _ _ _) as [[name|e|] o]; simpl in *; [| |done].
    + assert (size (obj_used_filenames o) ≤ size (used_filenames l) + 1) as Hsz
        by (rewrite Hused; apply size_add_le).
      pose proof (upload_not_out_of_fuel url name folder s) as Hup.
      destruct (upload_photo_to_yandex _ _ _ _ _ _) as [[r|e|] s'] eqn:Hupload;
        simpl in *; [| |done].
      * eexists. split; [done|]. split; [done|]. right.
        exists url, tag, name, r. by rewrite Hupload.
      * eexists. split; [done|]. split; [done|]. left.
        split; [|done]. exists e. right. right.
        exists url, tag, name. by rewrite Hupload.
    + eexists. split; [done|]. simpl. rewrite Hused. split; [lia|]. left.
      split; [|done]. exists e. right. by left.
  - exists l. split; [done|]. split; [lia|]. left. split; [|done].
    exists e. by left.
  - by destruct photo as [? ? ? [[|? ?]|]].
Qed.

Lemma upload_loop_cons fuel photos folder photo todo l s :
  upload_loop host self fuel photos folder (photo :: todo) l s
  = match process_photo host self fuel photos folder photo l s with
    | (Returned l1, s1) => upload_loop host self fuel photos folder todo l1 s1
    | (Raised e, s1) => (Raised e, s1)
    | (OutOfFuel, s1) => (OutOfFuel, s1)
    end.
Proof. done. Qed.

(** The loop goes through all its photos and returns; the manifest grows
    by one entry for each unit of the counter. *)
Lemma upload_loop_returns fuel photos folder todo l s :
  size (used_filenames l) + length todo < fuel →
  ∃ l',
    (upload_loop host self fuel photos folder todo l s).1 = Returned l'
    ∧ successful_uploads l ≤ successful_uploads l'
    ∧ length (photos_info l') + successful_uploads l
      = length (photos_info l) + successful_uploads l'.
Proof.
  revert l s. induction todo as [|photo todo IH]; intros l s Hfuel.
  - exists l. simpl. split; [done|]. lia.
  - rewrite upload_loop_cons. simpl in Hfuel.
    destruct (process_photo_cases fuel photos folder photo l s) as (l1 & Hl1 & Hsz & Hcase);
      [lia|].
    destruct (process_photo _ _ _ _ _ _ _ _) as [r s1]. simpl in Hl1. subst r.
    destruct (IH l1 s1) as (l' & Hl' & Hle & Hlen); [lia|].
    exists l'. split; [done|].
    destruct Hcase as [(_ & Hinfo & Hcount)|(? & ? & ? & ? & _ & _ & _ & Hinfo & Hcount)];
      rewrite Hinfo, Hcount in *; [lia|].
    rewrite length_app in Hlen. simpl in Hlen. lia.
Qed.

Lemma process_photo_sound fuel photos folder photo l s l1 :
  (process_photo host self fuel photos folder photo l s).1 = Returned l1 →
  photo_failed host self fuel photos folder photo l l1 s
  ∨ photo_uploaded host self fuel photos folder photo l l1 s.
Proof.
  unfold process_photo, photo_failed, photo_uploaded.
  destruct (get_largest_photo_size photo) as [[url tag]|e|] eqn:Hsize.
  - destruct (generate_filename _ _ _) as [[name|e|] o]; simpl in *; [| |done].
    + destruct (upload_photo_to_yandex _ _ _ _ _ _) as [[r|e|] s'] eqn:Hupload;
        simpl; [| |done]; intros [= <-].
      * right. exists url, tag, name, r. by rewrite Hupload.
      * left. split; [|done]. exists e. right. right.
        exists url, tag, name. by rewrite Hupload.
    + intros [= <-]. left. split; [|done]. exists e. right. by left.
  - intros [= <-]. left. split; [|done]. exists e. by left.
  - done.
Qed.

Lemma upload_loop_counts fuel photos folder todo l s l' :
  (upload_loop host self fuel photos folder todo l s).1 = Returned l' →
  successful_uploads l ≤ successful_uploads l'
  ∧ length (photos_info l') + successful_uploads l
    = length (photos_info l) + successful_uploads l'.
Proof.
  revert l s. induction todo as [|photo todo IH]; intros l s.
  - simpl. intros [= <-]. lia.
  - rewrite upload_loop_cons.
    pose proof (process_photo_sound fuel photos folder photo l s) as Hcase.
    destruct (process_photo _ _ _ _ _ _ _ _) as [[l1|e|] s1]; [|done..].
    intros Hrest. apply IH in Hrest as [Hle Hlen].
    destruct (Hcase l1 eq_refl)
      as [(_ & Hinfo & Hcount)|(? & ? & ? & ? & _ & _ & _ & Hinfo & Hcount)];
      rewrite Hinfo, Hcount in *; [lia|].
    rewrite length_app in Hlen. simpl in Hlen. lia.
Qed.

Lemma today_state s : (today host s).2 = s.
Proof. unfold today. by destruct (fromtimestamp _ _). Qed.


(** *** The sort *)

Lemma insert_desc_perm photo sorted : insert_desc photo sorted ≡ₚ photo :: sorted.
Proof.
  induction sorted as [|q sorted IH]; simpl; [done|].
  case_match; [|done]. rewrite IH. apply Permutation_swap.
Qed.

Lemma sort_photos_perm photos : sort_photos photos ≡ₚ photos.
Proof.
  induction photos as [|photo photos IH]; simpl; [done|].
  by rewrite insert_desc_perm, IH.
Qed.

Lemma sort_photos_length photos : length (sort_photos photos) = length photos.
Proof. by rewrite sort_photos_perm. Qed.


End ClientFacts.

(** ** The claims about the allocator *)

(** C1.  In a run of the allocator that starts from the empty tracking set,
    whatever photos are named and in whatever order, every call ends (none
    exhausts a fuel above the number of calls), the names returned are
    pairwise distinct and each ends with the extension [.jpg]; and no call,
    from any tracking set, returns a name that the set already holds. *)
Theorem allocator_names_distinct (utc_offset : Z → Z) (fuel : nat)
    (photos calls : list Photo) :
  length calls < fuel →
  let run := allocate utc_offset fuel photos calls ∅ in
  (OutOfFuel ∉ run.1)
  ∧ NoDup (returned run.1)
  ∧ (∀ name, name ∈ returned run.1 → ends_with ".jpg" name)
  ∧ (∀ photo used fuel' name,
       (generate_filename utc_offset fuel' (mkObjects photo photos used)).1
       = Returned name →
       name ∉ used).
Proof.
  intros Hfuel run.
  destruct (allocate_spec utc_offset fuel photos calls ∅) as (Hnd & Hfresh & _ & Hout).
  split_and!.
  - apply Hout. rewrite size_empty. simpl. lia.
  - done.
  - intros name Hin. by apply Hfresh.
  - intros photo used fuel' name Hret.
    by apply (generate_filename_fresh utc_offset fuel' (mkObjects photo photos used)).
Qed.

Lemma allocator_names_distinct_witness :
  let photos :=
    [Simulation.photo 1 1600000000 5 []; Simulation.photo 2 1600000000 5 [];
     Simulation.photo 2 1600000000 5 []; Simulation.photo 2 1600000000 5 []] in
  let run := allocate Simulation.moscow 5 photos photos ∅ in
  run.1 = [Returned "5_2020-09-13.jpg"; Returned "5_2020-09-13_2.jpg";
           Returned "5_2020-09-13_2_2.jpg"; Returned "5_2020-09-13_2_3.jpg"]
  ∧ (OutOfFuel ∉ run.1)
  ∧ NoDup (returned run.1)
  ∧ ∀ name, name ∈ returned run.1 → ends_with ".jpg" name.
Proof.
  intros photos run.
  destruct (allocator_names_distinct Simulation.moscow 5 photos photos)
    as (Hfuel & Hdistinct & Hjpg & _).
  - simpl. lia.
  - split; [vm_compute; reflexivity|].
    split; [exact Hfuel|]. split; [exact Hdistinct | exact Hjpg].
Defined.

(** C9.  [generate_filename] ends on every input: with fuel above the size
    of the tracking set the retry loop, started from any base name, returns
    a name that the set does not hold, and a call never exhausts that fuel;
    it returns such a name, unless [datetime.fromtimestamp] raised on the
    photo's date before the loop was entered. *)
Theorem generate_filename_terminates (utc_offset : Z → Z) (fuel : nat) (o : Objects) :
  size (obj_used_filenames o) < fuel →
  (∀ base id, ∃ name,
      retry fuel base id 1 (base +:+ ".jpg") (obj_used_filenames o) = Some name
      ∧ name ∉ obj_used_filenames o)
  ∧ match (generate_filename utc_offset fuel o).1 with
    | Returned name => name ∉ obj_used_filenames o
    | Raised e =>
        1 < length (filter (λ p, likes_of p = likes_of (obj_photo o)) (obj_photos o))
        ∧ fromtimestamp utc_offset (default 0%Z (photo_date (obj_photo o))) = inl e
    | OutOfFuel => False
    end.
Proof.
  intros Hfuel. split.
  - intros base id.
    destruct (retry_returns fuel base id _ Hfuel) as (name & ? & ? & _). eauto.
  - pose proof (generate_filename_cases utc_offset fuel o) as H.
    destruct (base_filename_of _ _ _) as [e|base] eqn:Hbase.
    + rewrite H. simpl. by apply base_filename_raises.
    + destruct H as [[_ ?]|(name & -> & ? & _)]; [lia | done].
Qed.

Lemma generate_filename_terminates_witness :
  let o :=
    mkObjects (Simulation.photo 7 1600000000 5 []) [Simulation.photo 7 1600000000 5 []]
              {[ "5.jpg"; "5_7.jpg" ]} in
  (generate_filename Simulation.moscow 3 o).1 = Returned "5_7_2.jpg"
  ∧ match (generate_filename Simulation.moscow 3 o).1 with
    | Returned name => name ∉ obj_used_filenames o
    | Raised e =>
        1 < length (filter (λ p, likes_of p = likes_of (obj_photo o)) (obj_photos o))
        ∧ fromtimestamp Simulation.moscow (default 0%Z (photo_date (obj_photo o))) = inl e
    | OutOfFuel => False
    end.
Proof.
  intros o. split; [vm_compute; reflexivity|].
  apply (generate_filename_terminates Simulation.moscow 3 o).
  vm_compute. lia.
Defined.

(** C10.  The only effect of a call of [generate_filename] is one
    insertion into the tracking set.  With fuel above the size of the set
    the call ends, and the photo and the list of photos are afterwards as
    they were.  It returns a name whenever a base name can be formed, that
    is, unless [datetime.fromtimestamp] raises on the photo's date: the
    name returned was not in the set, the set afterwards is the set before
    with that name added, and it has exactly one element more.  In the one
    case without a name, the exception of the date, the set is as it
    was. *)
Theorem generate_filename_frame (utc_offset : Z → Z) (fuel : nat) (o : Objects) :
  size (obj_used_filenames o) < fuel →
  let r := generate_filename utc_offset fuel o in
  obj_photo r.2 = obj_photo o
  ∧ obj_photos r.2 = obj_photos o
  ∧ match r.1 with
    | Returned name =>
        (name ∉ obj_used_filenames o)
        ∧ obj_used_filenames r.2 = {[ name ]} ∪ obj_used_filenames o
        ∧ size (obj_used_filenames r.2) = S (size (obj_used_filenames o))
    | Raised e =>
        obj_used_filenames r.2 = obj_used_filenames o
        ∧ 1 < length (filter (λ p, likes_of p = likes_of (obj_photo o)) (obj_photos o))
        ∧ fromtimestamp utc_offset (default 0%Z (photo_date (obj_photo o))) = inl e
    | OutOfFuel => False
    end
  ∧ (∀ base,
       base_filename_of utc_offset (obj_photo o) (obj_photos o) = inr base →
       ∃ name, r = (Returned name,
                    mkObjects (obj_photo o) (obj_photos o)
                              ({[ name ]} ∪ obj_used_filenames o))).
Proof.
  intros Hfuel. cbv zeta.
  pose proof (generate_filename_cases utc_offset fuel o) as H.
  destruct (base_filename_of _ _ _) as [e|base] eqn:Hbase.
  - rewrite H. simpl. split; [done|]. split; [done|]. split; [|done].
    split; [done|]. by apply base_filename_raises.
  - destruct H as [[_ ?]|(name & -> & Hnew & _)]; [lia|]. simpl.
    split; [done|]. split; [done|]. split.
    + split; [done|]. split; [done|].
      rewrite size_union by set_solver. rewrite size_singleton. lia.
    + intros base' _. by exists name.
Qed.

Lemma generate_filename_frame_witness :
  let p := Simulation.photo 7 1600000000 5 [] in
  let q := Simulation.photo 8 1610000000 5 [] in
  let used : gset string := {[ "5_2020-09-13.jpg"; "0.jpg" ]} in
  let r := generate_filename Simulation.moscow 3 (mkObjects p [p; q] used) in
  r.1 = Returned "5_2020-09-13_7.jpg"
  ∧ obj_photo r.2 = p
  ∧ obj_photos r.2 = [p; q]
  ∧ obj_used_filenames r.2 = {[ "5_2020-09-13_7.jpg" ]} ∪ used
  ∧ size (obj_used_filenames r.2) = 3.
Proof.
  intros p q used r.
  assert (r.1 = Returned "5_2020-09-13_7.jpg") as Hret by (vm_compute; reflexivity).
  destruct (generate_filename_frame Simulation.moscow 3 (mkObjects p [p; q] used))
    as (Hphoto & Hphotos & Hset & _).
  - vm_compute. lia.
  - fold r in Hphoto, Hphotos, Hset. rewrite Hret in Hset.
    destruct Hset as (_ & Hadded & Hsize).
    split; [exact Hret|]. split; [exact Hphoto|]. split; [exact Hphotos|].
    split; [exact Hadded | exact Hsize].
Defined.

(** C7.  Two photos named in the same run that have the same likes count
    and different capture dates both get the date appended to the likes
    count: each of the two names is the likes count, an underscore, the
    capture date as YYYY-MM-DD, a qualifier and the extension; the two
    dates as written differ, and so do the two names. *)
Theorem equal_likes_names_carry_dates (utc_offset : Z → Z) (fuel : nat)
    (photos calls : list Photo) (i j : nat) (p q : Photo) (dp dq : Z * Z * Z) :
  sublist calls photos →
  length calls < fuel →
  calls !! i = Some p → calls !! j = Some q → i ≠ j →
  likes_of p = likes_of q →
  fromtimestamp utc_offset (default 0%Z (photo_date p)) = inr dp →
  fromtimestamp utc_offset (default 0%Z (photo_date q)) = inr dq →
  dp ≠ dq →
  ∃ np nq,
    (allocate utc_offset fuel photos calls ∅).1 !! i = Some (Returned np)
    ∧ (allocate utc_offset fuel photos calls ∅).1 !! j = Some (Returned nq)
    ∧ framed_by (pretty (likes_of p) +:+ "_" +:+ strftime_ymd dp) ".jpg" np
    ∧ framed_by (pretty (likes_of q) +:+ "_" +:+ strftime_ymd dq) ".jpg" nq
    ∧ String.length (strftime_ymd dp) = 10
    ∧ String.length (strftime_ymd dq) = 10
    ∧ strftime_ymd dp ≠ strftime_ymd dq
    ∧ np ≠ nq.
Proof.
  intros Hsub Hfuel Hi Hj Hne Hlikes Hdp Hdq Hdates.
  assert (∀ k r d, calls !! k = Some r →
            1 < length (filter (λ x, likes_of x = likes_of r) photos) →
            fromtimestamp utc_offset (default 0%Z (photo_date r)) = inr d →
            ∃ n, (allocate utc_offset fuel photos calls ∅).1 !! k = Some (Returned n)
                 ∧ framed_by (pretty (likes_of r) +:+ "_" +:+ strftime_ymd d) ".jpg" n)
    as Hcall.
  { intros k r d Hk Hshared Hd.
    destruct (allocate_lookup utc_offset fuel photos calls ∅ k r Hk)
      as (used_k & Hsz & Hout).
    rewrite size_empty in Hsz. apply lookup_lt_Some in Hk.
    pose proof (generate_filename_cases utc_offset fuel (mkObjects r photos used_k)) as H.
    simpl in H. rewrite (base_filename_dated utc_offset r photos d) in H by done.
    destruct H as [[_ ?]|(n & Hn & _ & Hshape)]; [lia|].
    exists n. rewrite Hout, Hn. done. }
  destruct (Hcall i p dp) as (np & Hnp & Hshape_p);
    [done | by eapply shared_likes | done |].
  destruct (Hcall j q dq) as (nq & Hnq & Hshape_q);
    [done | by eapply (shared_likes photos calls j i) | done |].
  exists np, nq. split_and!; try done.
  - by destruct dp as [[??]?].
  - by destruct dq as [[??]?].
  - intros Heq. apply Hdates. by eapply fromtimestamp_strftime_inj.
  - eapply returned_lookup_ne; [|done..].
    apply (allocate_spec utc_offset fuel photos calls ∅).
Qed.

Lemma equal_likes_names_carry_dates_witness :
  let photos :=
    [Simulation.photo 1 1600000000 10 []; Simulation.photo 2 1610000000 10 []] in
  ∃ np nq,
    (allocate Simulation.moscow 3 photos photos ∅).1 !! 0 = Some (Returned np)
    ∧ (allocate Simulation.moscow 3 photos photos ∅).1 !! 1 = Some (Returned nq)
    ∧ framed_by ("10" +:+ "_" +:+ "2020-09-13") ".jpg" np
    ∧ framed_by ("10" +:+ "_" +:+ "2021-01-07") ".jpg" nq
    ∧ np ≠ nq.
Proof.
  intros photos.
  destruct (equal_likes_names_carry_dates Simulation.moscow 3 photos photos 0 1
              (Simulation.photo 1 1600000000 10 []) (Simulation.photo 2 1610000000 10 [])
              (2020, 9, 13)%Z (2021, 1, 7)%Z)
    as (np & nq & Hp & Hq & Hnp & Hnq & _ & _ & _ & Hne).
  - reflexivity.
  - simpl. lia.
  - reflexivity.
  - reflexivity.
  - lia.
  - reflexivity.
  - vm_compute. reflexivity.
  - vm_compute. reflexivity.
  - intros Heq. discriminate Heq.
  - exists np, nq.
    split; [exact Hp|]. split; [exact Hq|]. split; [exact Hnp|].
    split; [exact Hnq | exact Hne].
Defined.

(** ** The claim about the size selector *)

(** C2.  For a photo without size variants [get_largest_photo_size] raises
    a [ValueError]; otherwise it returns the address and the tag of the
    first variant of largest area: no variant of the photo has more pixels
    and every variant before it has fewer. *)
Theorem largest_size_selected (photo : Photo) :
  match sizes_of photo with
  | [] => ∃ text, get_largest_photo_size photo = Raised (mkExn ValueError text)
  | _ :: _ =>
      ∃ i best,
        first_largest (sizes_of photo) i best
        ∧ get_largest_photo_size photo = Returned (size_url best, size_type best)
  end.
Proof.
  unfold get_largest_photo_size.
  destruct (sizes_of photo) as [|first sizes] eqn:Hsizes; [by eexists|].
  pose proof (largest_fold_inv first (first :: sizes) [] (0%N, first)) as Hinv.
  simpl app in Hinv.
  destruct Hinv as [Hle Hbest].
  { split; [by intros s ?%elem_of_nil | by left]. }
  set (acc := fold_left largest_step (first :: sizes) (0%N, first)) in *.
  destruct Hbest as [[Hzero Hfirst]|(Hpos & i & Hi & Harea & Hless)].
  - exists 0, first. rewrite Hfirst. split; [|done].
    assert (total_pixels first = 0%N) as Hf.
    { specialize (Hle first). rewrite Hzero in Hle.
      assert (total_pixels first ≤ 0)%N by (apply Hle; left). lia. }
    split_and!; [done | | intros; lia].
    intros s Hs. specialize (Hle s Hs). lia.
  - exists i, acc.2. split; [|done].
    split_and!; [done | |].
    + intros s Hs. specialize (Hle s Hs). lia.
    + intros j s Hj Hs. specialize (Hless j s Hj Hs). lia.
Qed.

(** ** The claims about the orchestrator *)

Lemma failure_lookup message :
  failure message !! "success" = Some (VBool false)
  ∧ failure message !! "message" = Some (VStr message)
  ∧ failure message !! "uploaded_photos" = None
  ∧ failure message !! "total_photos" = None.
Proof. unfold failure. split_and!; by simplify_map_eq. Qed.

(** C4, as amended.  When both credentials pass and VK serves no photo,
    [backup_photos] returns a dictionary with [success] false and a message
    and with no count of uploaded or of all photos in it; it stops right
    after the photos were fetched, and no manifest is written. *)
Theorem no_photos_reported_without_counts {World : Type} (host : Host World)
    (self : VKPhotoBackup) (fuel : nat) (user_id : string) (count : Z)
    (s0 : State World) :
  let s1 := (check_vk_token_validity host self s0).2 in
  let s2 := (check_yandex_disk_availability host self s1).2 in
  let fetch := get_profile_photos host self user_id count s2 in
  let run := backup_photos host self fuel user_id count s0 in
  returns (check_vk_token_validity host self s0).1 = true →
  returns (check_yandex_disk_availability host self s1).1 = true →
  fetch.1 = Returned [] →
  ∃ result text,
    run.1 = Returned result
    ∧ result !! "success" = Some (VBool false)
    ∧ result !! "message" = Some (VStr text) ∧ text ≠ ""
    ∧ result !! "uploaded_photos" = None
    ∧ result !! "total_photos" = None
    ∧ run.2 = fetch.2
    ∧ manifests (trace run.2) = manifests (trace s0).
Proof.
  intros s1 s2 fetch run Hvk Hdisk Hfetch.
  pose proof (quiet_check_vk_token_validity host self s0) as Hq1.
  pose proof (quiet_check_yandex_disk_availability host self s1) as Hq2.
  pose proof (quiet_get_profile_photos host self user_id count s2) as Hq3.
  subst run. unfold backup_photos, try_except, mbind, M_bind, bind.
  fold fetch in Hq3. subst s2 s1.
  destruct (check_vk_token_validity host self s0) as [[r1| |] s1]; try done.
  simpl in *.
  destruct (check_yandex_disk_availability host self s1) as [[r2| |] s2]; try done.
  simpl in *. subst fetch.
  destruct (get_profile_photos host self user_id count s2) as [r3 s3].
  simpl in *. subst r3. simpl.
  eexists _, _. split; [done|].
  destruct (failure_lookup
    "У пользователя нет фотографий в профиле или профиль закрыт")
    as (-> & -> & -> & ->).
  split_and!; try done. congruence.
Qed.

Lemma no_photos_reported_without_counts_witness :
  let s0 := Simulation.start [] [] in
  ∃ result text,
    (backup_photos Simulation.sim_host Simulation.me 10 "1" 5 s0).1 = Returned result
    ∧ result !! "success" = Some (VBool false)
    ∧ result !! "message" = Some (VStr text) ∧ text ≠ ""
    ∧ result !! "uploaded_photos" = None
    ∧ result !! "total_photos" = None
    ∧ manifests (trace (backup_photos Simulation.sim_host Simulation.me 10 "1" 5 s0).2)
      = manifests (trace s0).
Proof.
  intros s0.
  destruct (no_photos_reported_without_counts
              Simulation.sim_host Simulation.me 10 "1" 5%Z s0)
    as (result & text & ? & ? & ? & ? & ? & ? & _ & ?);
    [by vm_compute..|].
  by exists result, text.
Defined.

(** C4 as stated fails: with no photo on the account the dictionary that
    [backup_photos] returns holds no count at all, so it does not hold an
    uploaded count of 0 and a total count of 0. *)
Lemma no_photos_result_lacks_counts :
  ¬ ∃ result,
      (backup_photos Simulation.sim_host Simulation.me 10 "1" 5
         (Simulation.start [] [])).1 = Returned result
      ∧ result !! "success" = Some (VBool false)
      ∧ result !! "uploaded_photos" = Some (VInt 0)
      ∧ result !! "total_photos" = Some (VInt 0).
Proof.
  intros (result & Hrun & _ & Hup & _).
  vm_compute in Hrun. injection Hrun as <-.
  vm_compute in Hup. discriminate Hup.
Qed.






(** ** The claims about the destination client *)

(** C3, where the code departs from it.  An upload request answered with
    status 200 neither succeeds with [True] nor raises:
    [upload_photo_to_yandex] returns without a value, and [backup_photos],
    which only watches for exceptions, counts the photo as uploaded and
    enters it in the manifest. *)
Theorem upload_answered_200_counts_as_uploaded :
  let s0 :=
    Simulation.start
      [Simulation.photo 1 1600000000 10 [Simulation.variant 75 50 "s"]] [200%Z] in
  (upload_photo_to_yandex Simulation.sim_host Simulation.me
     "https://vk.example/s.jpg" "10.jpg" "VK_Photos_1_2023-11-15" s0).1
  = Returned None
  ∧ ∃ result,
      (backup_photos Simulation.sim_host Simulation.me 10 "1" 1 s0).1 = Returned result
      ∧ result !! "success" = Some (VBool true)
      ∧ result !! "uploaded_photos" = Some (VInt 1)
      ∧ result !! "photos_info" = Some (VList [mkEntry "10.jpg" "s"]).
Proof.
  intros s0. split; [vm_compute; reflexivity|].
  exists (result_of (backup_photos Simulation.sim_host Simulation.me 10 "1" 1 s0).1).
  repeat split; vm_compute; reflexivity.
Qed.

Lemma sim_folder_store :
  FolderStore Simulation.sim_host Simulation.me Simulation.sim_folders.
Proof.
  split; intros name w; simpl; unfold Simulation.sim_send; simpl;
    change (Simulation.param "path" [("path", "/" +:+ name)]) with ("/" +:+ name).
  - case_decide; eexists; (split; [done|]); (split; [done|]); simpl; split; done.
  - case_decide; eexists; (split; [done|]); done.
Qed.

(** C8.  [create_yandex_folder] first looks the folder up, and the lookup
    always yields an answer.  When the folder is found it returns [True]
    and sends nothing more; otherwise it sends one creation request, and
    returns [True] when that request is answered 201 or 409, the latter
    being the answer when somebody else created the folder in between.
    Against a destination that keeps its folders as the API documents, two
    calls in a row with the same name both return [True], the second sends
    no creation request, and the folder is there after the first call and
    the folders are the same after the second. *)
Theorem create_yandex_folder_idempotent {World : Type} (host : Host World)
    (self : VKPhotoBackup) (folders : World → gset string) (name : string)
    (s : State World) :
  let lookup := check_folder_exists host self name s in
  let first := create_yandex_folder host self name s in
  let second := create_yandex_folder host self name first.2 in
  (∃ present : bool,
      lookup.1 = Returned present
      ∧ trace lookup.2 = trace s ++ [Sent (folder_request self GET name)]
      ∧ if present
        then first = (Returned (Some true), lookup.2)
        else trace first.2
             = trace s ++ [Sent (folder_request self GET name);
                           Sent (folder_request self PUT name)]
             ∧ ∀ response,
                 (send host (folder_request self PUT name) (world lookup.2)).1
                 = Answered response →
                 status_code response = 201%Z ∨ status_code response = 409%Z →
                 first.1 = Returned (Some true))
  ∧ (FolderStore host self folders →
     first.1 = Returned (Some true)
     ∧ second.1 = Returned (Some true)
     ∧ requests_of PUT (trace second.2) = requests_of PUT (trace first.2)
     ∧ length (requests_of PUT (trace first.2)) ≤ S (length (requests_of PUT (trace s)))
     ∧ folders (world first.2) = {[ "/" +:+ name ]} ∪ folders (world s)
     ∧ folders (world second.2) = folders (world first.2)).
Proof.
  intros lookup first second. split.
  - subst first lookup. rewrite create_yandex_folder_spec. cbv zeta.
    rewrite !check_folder_exists_spec. cbv zeta. simpl.
    eexists. split; [done|]. split; [done|].
    destruct (match (send host (folder_request self GET name) (world s)).1 with
              | Answered response => bool_decide (status_code response = 200%Z)
              | Unreachable _ => false
              end); [done|].
    simpl. split.
    + destruct (send host (folder_request self PUT name) _).1 as [response|text];
        repeat case_decide; try case_bool_decide; simpl; by rewrite <- app_assoc.
    + intros response -> [Hcode|Hcode].
      * by rewrite decide_True.
      * case_decide; [done|]. by rewrite decide_True.
  - intros Hstore.
    assert (∀ s0 : State World,
      let r := create_yandex_folder host self name s0 in
      r.1 = Returned (Some true)
      ∧ folders (world r.2) = {[ "/" +:+ name ]} ∪ folders (world s0)
      ∧ ("/" +:+ name ∈ folders (world s0) →
         requests_of PUT (trace r.2) = requests_of PUT (trace s0))
      ∧ length (requests_of PUT (trace r.2)) ≤ S (length (requests_of PUT (trace s0))))
      as Hcall.
    { intros s0. cbv zeta. rewrite create_yandex_folder_spec. cbv zeta.
      rewrite !check_folder_exists_spec. cbv zeta. simpl.
      destruct (store_get host self folders Hstore name (world s0))
        as (response & Hget & Hsame & Hstatus).
      rewrite Hget. case_bool_decide as Hcode; simpl.
      - apply Hstatus in Hcode. split; [done|]. rewrite Hsame.
        split; [clear -Hcode; set_solver|].
        unfold requests_of. rewrite omap_app. simpl. rewrite app_nil_r.
        split; [done | lia].
      - destruct (store_put host self folders Hstore name
                    (send host (folder_request self GET name) (world s0)).2)
          as (response' & Hput & Hfolders).
        rewrite Hput. rewrite Hsame in Hfolders.
        rewrite decide_False in Hfolders by (by rewrite <- Hstatus).
        destruct Hfolders as [Hcreated Hfolders].
        rewrite decide_True by done. simpl. split; [done|]. split; [done|].
        split; [by rewrite <- Hstatus|].
        unfold requests_of. rewrite !omap_app. simpl.
        rewrite !length_app. simpl. lia. }
    destruct (Hcall s) as (Hfirst & Hafter & _ & Hputs).
    destruct (Hcall first.2) as (Hsecond & Hafter' & Hnoput & _).
    fold first in Hfirst, Hafter, Hputs. fold second in Hsecond, Hafter', Hnoput.
    clearbody second. clearbody first. clear Hcall lookup.
    split_and!; try done.
    + apply Hnoput. rewrite Hafter. set_solver.
    + rewrite Hafter', Hafter. set_solver.
Qed.

Lemma create_yandex_folder_idempotent_witness :
  let s := Simulation.start [] [] in
  let first :=
    create_yandex_folder Simulation.sim_host Simulation.me "VK_Photos_1_2023-11-15" s in
  let second :=
    create_yandex_folder Simulation.sim_host Simulation.me "VK_Photos_1_2023-11-15"
      first.2 in
  first.1 = Returned (Some true)
  ∧ second.1 = Returned (Some true)
  ∧ requests_of PUT (trace second.2) = requests_of PUT (trace first.2)
  ∧ length (requests_of PUT (trace first.2)) ≤ 1.
Proof.
  intros s first second.
  destruct (create_yandex_folder_idempotent
              Simulation.sim_host Simulation.me Simulation.sim_folders
              "VK_Photos_1_2023-11-15" s) as [_ Htwice].
  destruct (Htwice sim_folder_store) as (? & ? & ? & ? & _).
  done.
Defined.

(** * Further properties *)

(** ** The order of the uploads *)

Lemma foldl_max_spec (m : N) (l : list N) :
  (m ≤ foldl N.max m l)%N
  ∧ (∀ x, x ∈ l → (x ≤ foldl N.max m l)%N)
  ∧ (foldl N.max m l = m ∨ foldl N.max m l ∈ l).
Proof.
  revert m. induction l as [|x l IH]; intros m; simpl.
  - split_and!; [lia | by intros x ?%elem_of_nil | by left].
  - destruct (IH (N.max m x)) as (Hle & Hall & Hin).
    split_and!.
    + lia.
    + intros y [->|Hy]%elem_of_cons; [lia | by apply Hall].
    + destruct Hin as [Heq|Hin].
      * rewrite Heq. destruct (N.max_spec m x) as [[_ ->]|[_ ->]];
          [right; left | by left].
      * right. by right.
Qed.

Lemma get_max_size_spec photo :
  (∀ s, s ∈ sizes_of photo → (total_pixels s ≤ get_max_size photo)%N)
  ∧ (sizes_of photo = [] ∧ get_max_size photo = 0%N
     ∨ ∃ s, s ∈ sizes_of photo ∧ total_pixels s = get_max_size photo).
Proof.
  unfold get_max_size. destruct (sizes_of photo) as [|s sizes].
  - split; [by intros s ?%elem_of_nil | by left].
  - destruct (foldl_max_spec (total_pixels s) (total_pixels <$> sizes))
      as (Hle & Hall & Hin).
    split.
    + intros s' [->|Hs']%elem_of_cons; [done|].
      apply Hall, list_elem_of_fmap. by exists s'.
    + right. destruct Hin as [->|Hin].
      * exists s. split; [left | done].
      * apply list_elem_of_fmap in Hin as (s' & Heq & Hs').
        exists s'. split; [by right | done].
Qed.

Lemma largest_fold_best first sizes :
  let best := (fold_left largest_step (first :: sizes) (0%N, first)).2 in
  best ∈ first :: sizes
  ∧ ∀ s, s ∈ first :: sizes → (total_pixels s ≤ total_pixels best)%N.
Proof.
  pose proof (largest_fold_inv first (first :: sizes) [] (0%N, first)) as Hinv.
  simpl app in Hinv. destruct Hinv as [Hle Hbest].
  { split; [by intros s ?%elem_of_nil | by left]. }
  cbv zeta.
  set (acc := fold_left largest_step (first :: sizes) (0%N, first)) in *.
  destruct Hbest as [[Hzero Hfirst]|(Hpos & i & Hi & Harea & _)].
  - rewrite Hfirst. split; [left|].
    intros s Hs. specialize (Hle s Hs). lia.
  - split; [by eapply list_elem_of_lookup_2|].
    intros s Hs. specialize (Hle s Hs). lia.
Qed.

(** X1.  The key by which [backup_photos] sorts a photo is the area of the
    variant that [get_largest_photo_size] picks for it, and no variant of
    the photo has more pixels; a photo without variants has key 0 and no
    variant to pick. *)
Theorem sort_key_is_area_of_selected_variant (photo : Photo) :
  (∀ s, s ∈ sizes_of photo → (total_pixels s ≤ get_max_size photo)%N)
  ∧ match get_largest_photo_size photo with
    | Returned (url, tag) =>
        ∃ best, best ∈ sizes_of photo
                ∧ size_url best = url ∧ size_type best = tag
                ∧ total_pixels best = get_max_size photo
    | Raised _ => sizes_of photo = [] ∧ get_max_size photo = 0%N
    | OutOfFuel => False
    end.
Proof.
  destruct (get_max_size_spec photo) as [Hle Hmax]. split; [done|].
  unfold get_largest_photo_size.
  destruct (sizes_of photo) as [|first sizes] eqn:Hsizes.
  - by destruct Hmax as [?|(s & ?%elem_of_nil & _)].
  - destruct (largest_fold_best first sizes) as [Hin Hbest].
    eexists. split; [exact Hin|]. split; [done|]. split; [done|].
    destruct Hmax as [[? _]|(s & Hs & Hmaxs)]; [done|].
    apply N.le_antisymm; [by apply Hle|].
    rewrite <- Hmaxs. by apply Hbest.
Qed.

Lemma insert_desc_sorted photo sorted :
  StronglySorted larger_first sorted →
  StronglySorted larger_first (insert_desc photo sorted).
Proof.
  induction 1 as [|q sorted Hsorted IH Hq]; simpl.
  - repeat constructor.
  - destruct (get_max_size photo <? get_max_size q)%N eqn:Hlt.
    + apply N.ltb_lt in Hlt. constructor; [done|].
      rewrite insert_desc_perm. constructor; [|done].
      unfold larger_first. lia.
    + apply N.ltb_ge in Hlt. constructor; [by constructor|].
      constructor; [done|].
      eapply Forall_impl; [exact Hq|].
      unfold larger_first. intros r Hr. lia.
Qed.

Lemma insert_desc_filter (k : N) photo sorted :
  filter (λ p, get_max_size p = k) (insert_desc photo sorted)
  = filter (λ p, get_max_size p = k) (photo :: sorted).
Proof.
  induction sorted as [|q sorted IH]; simpl; [done|].
  destruct (get_max_size photo <? get_max_size q)%N eqn:Hlt; [|done].
  apply N.ltb_lt in Hlt.
  rewrite !filter_cons in *.
  repeat case_decide; simplify_eq; try lia; by rewrite IH.
Qed.

(** X2.  [photos.sort(key=get_max_size, reverse=True)] rearranges the photos
    without losing or repeating any, puts them in order of non-increasing
    largest area, and keeps photos of equal largest area in the order in
    which VK served them. *)
Theorem sort_photos_sorts (photos : list Photo) :
  sort_photos photos ≡ₚ photos
  ∧ StronglySorted larger_first (sort_photos photos)
  ∧ ∀ k, filter (λ p, get_max_size p = k) (sort_photos photos)
         = filter (λ p, get_max_size p = k) photos.
Proof.
  split_and!.
  - apply sort_photos_perm.
  - induction photos as [|photo photos IH]; [constructor|].
    by apply insert_desc_sorted.
  - intros k. induction photos as [|photo photos IH]; [done|].
    change (sort_photos (photo :: photos))
      with (insert_desc photo (sort_photos photos)).
    rewrite insert_desc_filter, !filter_cons, IH. done.
Qed.

(** ** The ladder of names *)

Lemma retry_first_fit (fuel : nat) base id (n : nat) (used : gset string) name :
  (∀ c, c < n → candidate base id c ∈ used) →
  retry fuel base id (Z.of_nat n + 1) (candidate base id n) used = Some name →
  ∃ k, name = candidate base id k
       ∧ (name ∉ used)
       ∧ ∀ c, c < k → candidate base id c ∈ used.
Proof.
  revert n. induction fuel as [|fuel IH]; intros n Hbelow; simpl; [done|].
  case_decide as Hin.
  - replace (Z.of_nat n + 1 + 1)%Z with (Z.of_nat (S n) + 1)%Z by lia.
    replace (fallback_name base id (Z.of_nat n + 1))
      with (candidate base id (S n))
      by (simpl; f_equal; lia).
    apply IH. intros c Hc.
    destruct (decide (c = n)) as [->|]; [done | apply Hbelow; lia].
  - intros [= <-]. by exists n.
Qed.

(** X3.  The name [generate_filename] returns is the first free one of the
    ladder "base.jpg", "base_id.jpg", "base_id_2.jpg", "base_id_3.jpg", ...:
    every earlier name of the ladder is in the tracking set and the
    returned one is not.  The base is the likes count alone when no other
    photo of the list has that count, and the likes count, an underscore
    and the capture date otherwise. *)
Theorem generate_filename_first_fit (utc_offset : Z → Z) (fuel : nat) (o : Objects)
    (name : string) :
  (generate_filename utc_offset fuel o).1 = Returned name →
  let likes := likes_of (obj_photo o) in
  let shared := filter (λ p, likes_of p = likes) (obj_photos o) in
  ∃ base k,
    (length shared ≤ 1 ∧ base = pretty likes
     ∨ 1 < length shared
       ∧ ∃ date,
           fromtimestamp utc_offset (default 0%Z (photo_date (obj_photo o))) = inr date
           ∧ base = pretty likes +:+ "_" +:+ strftime_ymd date)
    ∧ name = candidate base (default 0%Z (photo_id (obj_photo o))) k
    ∧ (name ∉ obj_used_filenames o)
    ∧ ∀ c, c < k →
           candidate base (default 0%Z (photo_id (obj_photo o))) c
           ∈ obj_used_filenames o.
Proof.
  intros Hret likes shared. unfold generate_filename in Hret. cbv zeta in Hret.
  destruct (base_filename_of utc_offset (obj_photo o) (obj_photos o))
    as [e|base] eqn:Hbase; [done|].
  destruct (retry _ _ _ _ _ _) as [name'|] eqn:Hretry; [|done].
  injection Hret as ->.
  destruct (retry_first_fit fuel base (default 0%Z (photo_id (obj_photo o))) 0
              (obj_used_filenames o) name) as (k & Hname & Hfree & Hbelow);
    [intros c ?; lia | done |].
  exists base, k. split; [|done].
  unfold base_filename_of in Hbase. fold likes shared in Hbase.
  case_decide as Hshared.
  - right. split; [done|].
    destruct (fromtimestamp _ _) as [e|date]; [done|].
    injection Hbase as <-. by exists date.
  - left. injection Hbase as <-. split; [lia | done].
Qed.

Lemma generate_filename_first_fit_witness :
  let p := Simulation.photo 7 1600000000 5 [] in
  let o := mkObjects p [p] {[ "5.jpg"; "5_7.jpg"; "5_7_3.jpg" ]} in
  (generate_filename Simulation.moscow 4 o).1 = Returned "5_7_2.jpg"
  ∧ ∃ base k,
      "5_7_2.jpg" = candidate base 7 k
      ∧ ∀ c, c < k → candidate base 7 c ∈ obj_used_filenames o.
Proof.
  intros p o.
  assert ((generate_filename Simulation.moscow 4 o).1 = Returned "5_7_2.jpg") as Hret
    by (vm_compute; reflexivity).
  split; [exact Hret|].
  destruct (generate_filename_first_fit Simulation.moscow 4 o "5_7_2.jpg" Hret)
    as (base & k & _ & Hname & _ & Hbelow).
  exists base, k. split; [exact Hname | exact Hbelow].
Defined.

(** ** What the steps of a run send and need *)

Section RunFacts.

Context {World : Type}.
Variable host : Host World.
Variable self : VKPhotoBackup.

Lemma requests_of_app meth (t1 t2 : list event) :
  requests_of meth (t1 ++ t2) = requests_of meth t1 ++ requests_of meth t2.
Proof. apply omap_app. Qed.

Lemma spares_ret {A} meth (a : A) : spares meth (ret (World:=World) a).
Proof. done. Qed.

Lemma spares_raise {A} meth (e : exn) : spares meth (raise (World:=World) (A:=A) e).
Proof. done. Qed.

Lemma spares_bind {A B} meth (m : M A) (k : A → M B) :
  spares meth m → (∀ a, spares meth (k a)) → spares meth (bind (World:=World) m k).
Proof.
  intros Hm Hk s. unfold bind. specialize (Hm s).
  destruct (m s) as [[a|e|] s']; simpl in *; [|done..].
  by rewrite Hk.
Qed.

Lemma spares_try_except {A} meth (m : M A) catches (handler : exn → M A) :
  spares meth m → (∀ e, spares meth (handler e)) →
  spares meth (try_except (World:=World) m catches handler).
Proof.
  intros Hm Hh s. unfold try_except. specialize (Hm s).
  destruct (m s) as [[a|e|] s']; simpl in *; [done| |done].
  destruct (catches e); [by rewrite Hh | done].
Qed.

Lemma spares_request meth r : req_method r ≠ meth → spares meth (request host r).
Proof.
  intros Hne s. unfold request.
  destruct (send host r (world s)) as [[response|text] w]; simpl;
    rewrite requests_of_app; simpl; rewrite decide_False by done;
    by rewrite app_nil_r.
Qed.

Lemma spares_raise_for_status meth response :
  spares meth (raise_for_status (World:=World) response).
Proof. unfold raise_for_status. by case_bool_decide. Qed.

Lemma never_stalls_ret {A} (a : A) : never_stalls (ret (World:=World) a).
Proof. done. Qed.

Lemma never_stalls_raise {A} (e : exn) : never_stalls (raise (World:=World) (A:=A) e).
Proof. done. Qed.

Lemma never_stalls_bind {A B} (m : M A) (k : A → M B) :
  never_stalls m → (∀ a, never_stalls (k a)) → never_stalls (bind (World:=World) m k).
Proof.
  intros Hm Hk s. unfold bind. specialize (Hm s).
  destruct (m s) as [[a|e|] s']; simpl in *; [apply Hk | done..].
Qed.

Lemma never_stalls_try_except {A} (m : M A) catches (handler : exn → M A) :
  never_stalls m → (∀ e, never_stalls (handler e)) →
  never_stalls (try_except (World:=World) m catches handler).
Proof.
  intros Hm Hh s. unfold try_except. specialize (Hm s).
  destruct (m s) as [[a|e|] s']; simpl in *; [done| |done].
  destruct (catches e); [apply Hh | done].
Qed.

Lemma never_stalls_request r : never_stalls (request host r).
Proof. intros s. apply request_not_out_of_fuel. Qed.

Lemma never_stalls_raise_for_status response :
  never_stalls (raise_for_status (World:=World) response).
Proof. unfold raise_for_status. by case_bool_decide. Qed.

End RunFacts.

(** Goals on a computation built from the operations above fall to them,
    one operation at a time. *)
Ltac step_by_step :=
  unfold mbind, M_bind, session_request, requests_get;
  repeat first
    [ apply spares_ret | apply spares_raise | apply spares_raise_for_status
    | apply spares_request; done
    | apply spares_bind; [|intros ?] | apply spares_try_except; [|intros ?]
    | apply never_stalls_ret | apply never_stalls_raise
    | apply never_stalls_raise_for_status | apply never_stalls_request
    | apply never_stalls_bind; [|intros ?]
    | apply never_stalls_try_except; [|intros ?]
    | case_decide | case_match ].

Section StepFacts.

Context {World : Type}.
Variable host : Host World.
Variable self : VKPhotoBackup.

Lemma spares_check_vk_token_validity meth :
  meth ≠ GET → spares meth (check_vk_token_validity host self).
Proof. intros ?. unfold check_vk_token_validity. step_by_step. Qed.

Lemma spares_check_yandex_disk_availability meth :
  meth ≠ GET → spares meth (check_yandex_disk_availability host self).
Proof. intros ?. unfold check_yandex_disk_availability. step_by_step. Qed.

Lemma spares_get_profile_photos meth user_id count :
  meth ≠ GET → spares meth (get_profile_photos host self user_id count).
Proof. intros ?. unfold get_profile_photos. step_by_step. Qed.

Lemma spares_create_yandex_folder name :
  spares POST (create_yandex_folder host self name).
Proof.
  unfold create_yandex_folder, check_folder_exists, mbind, M_bind.
  apply spares_bind; [step_by_step|]. intros []; step_by_step.
Qed.

Lemma never_stalls_check_vk_token_validity :
  never_stalls (check_vk_token_validity host self).
Proof. unfold check_vk_token_validity. step_by_step. Qed.

Lemma never_stalls_check_yandex_disk_availability :
  never_stalls (check_yandex_disk_availability host self).
Proof. unfold check_yandex_disk_availability. step_by_step. Qed.

Lemma never_stalls_get_profile_photos user_id count :
  never_stalls (get_profile_photos host self user_id count).
Proof. unfold get_profile_photos. step_by_step. Qed.

Lemma never_stalls_create_yandex_folder name :
  never_stalls (create_yandex_folder host self name).
Proof.
  unfold create_yandex_folder, check_folder_exists, mbind, M_bind.
  apply never_stalls_bind; [step_by_step|]. intros []; step_by_step.
Qed.

Lemma never_stalls_today : never_stalls (today host).
Proof. intros s. unfold today. by destruct (fromtimestamp _ _). Qed.

Lemma spares_today meth : spares meth (today host).
Proof. intros s. by rewrite today_state. Qed.

End StepFacts.

(** ** The ways a run can end *)

Section RunOutcome.

Context {World : Type}.
Variable host : Host World.
Variable self : VKPhotoBackup.

Lemma strftime_ymd_length date : String.length (strftime_ymd date) = 10.
Proof. by destruct date as [[y m] d]. Qed.

Lemma today_length s date :
  (today host s).1 = Returned date → String.length date = 10.
Proof.
  unfold today. destruct (fromtimestamp _ _) as [e|d]; [done|].
  intros [= <-]. apply strftime_ymd_length.
Qed.

Lemma upload_loop_bound fuel photos folder todo l s l' :
  (upload_loop host self fuel photos folder todo l s).1 = Returned l' →
  successful_uploads l' ≤ successful_uploads l + length todo.
Proof.
  revert l s. induction todo as [|photo todo IH]; intros l s.
  - simpl. intros [= <-]. lia.
  - rewrite upload_loop_cons.
    pose proof (process_photo_sound host self fuel photos folder photo l s) as Hcase.
    destruct (process_photo _ _ _ _ _ _ _ _) as [[l1|e|] s1]; [|done..].
    intros Hrest%IH.
    destruct (Hcase l1 eq_refl)
      as [(_ & _ & Hcount)|(? & ? & ? & ? & _ & _ & _ & _ & Hcount)];
      rewrite Hcount in Hrest; simpl; lia.
Qed.

(** A run ends in one of three ways: with a failure dictionary; out of
    fuel, which takes at least as many photos as there is fuel; or, every
    step having returned and something having been uploaded, with the
    success dictionary and the manifest written last. *)
Lemma backup_photos_outcome fuel user_id count s0 :
  let s1 := (check_vk_token_validity host self s0).2 in
  let s2 := (check_yandex_disk_availability host self s1).2 in
  let fetch := get_profile_photos host self user_id count s2 in
  let run := backup_photos host self fuel user_id count s0 in
  (∃ text, run.1 = Returned (failure text))
  ∨ (run.1 = OutOfFuel ∧ ∃ fetched, fetch.1 = Returned fetched ∧ fuel ≤ length fetched)
  ∨ ∃ fetched date l,
      let folder_name := "VK_Photos_" +:+ user_id +:+ "_" +:+ date in
      let photos := sort_photos fetched in
      let s4 := (create_yandex_folder host self folder_name fetch.2).2 in
      let loop :=
        upload_loop host self fuel photos folder_name photos (mkLocals [] 0 ∅) s4 in
      let json_filename := "photos_info_" +:+ user_id +:+ ".json" in
      let written := write_json host json_filename (photos_info l) (world loop.2) in
      returns (check_vk_token_validity host self s0).1 = true
      ∧ returns (check_yandex_disk_availability host self s1).1 = true
      ∧ fetch.1 = Returned fetched ∧ fetched ≠ []
      ∧ (today host fetch.2).1 = Returned date
      ∧ returns (create_yandex_folder host self folder_name fetch.2).1 = true
      ∧ loop.1 = Returned l ∧ 0 < successful_uploads l
      ∧ written.1 = None
      ∧ run = (Returned (success (length fetched) (successful_uploads l)
                                 folder_name json_filename (photos_info l)),
               mkState written.2 (trace loop.2 ++ [Wrote json_filename (photos_info l)])).
Proof.
  intros s1 s2 fetch run.
  pose proof (never_stalls_check_vk_token_validity host self s0) as Hn1.
  pose proof (never_stalls_check_yandex_disk_availability host self s1) as Hn2.
  pose proof (never_stalls_get_profile_photos host self user_id count s2) as Hn3.
  subst run fetch. unfold backup_photos, try_except, mbind, M_bind, bind.
  subst s2 s1.
  destruct (check_vk_token_validity host self s0) as [[r1|e| ] s1];
    [|left; by eexists|done].
  simpl in *.
  destruct (check_yandex_disk_availability host self s1) as [[r2|e| ] s2];
    [|left; by eexists|done].
  simpl in *.
  destruct (get_profile_photos host self user_id count s2) as [[fetched|e| ] s3];
    [|left; by eexists|done].
  simpl in *.
  destruct fetched as [|photo fetched]; [left; by eexists|].
  pose proof (never_stalls_today host s3) as Hn4.
  pose proof (today_state host s3) as Hs3.
  destruct (today host s3) as [[date|e| ] s3'];
    [|left; by eexists|done].
  simpl in Hs3. subst s3'.
  set (folder_name := "VK_Photos_" +:+ user_id +:+ "_" +:+ date).
  pose proof (never_stalls_create_yandex_folder host self folder_name s3) as Hn5.
  destruct (create_yandex_folder host self folder_name s3) as [[r5|e| ] s4] eqn:Hfolder;
    [|left; by eexists|done].
  set (photos := sort_photos (photo :: fetched)).
  destruct (upload_loop host self fuel photos folder_name photos
              (mkLocals [] 0 ∅) s4) as [[l|e| ] s5] eqn:Hloop.
  - case_decide as Hzero; [left; by eexists|].
    unfold save_photos_info.
    destruct (write_json host ("photos_info_" +:+ user_id +:+ ".json")
                (photos_info l) (world s5)) as [[text|] w] eqn:Hwrite;
      [left; by eexists|].
    right. right. exists (photo :: fetched), date, l. cbv zeta.
    fold folder_name photos. rewrite Hfolder. simpl. rewrite Hloop. simpl.
    rewrite Hwrite. simpl.
    split_and!; try done; [lia|].
    unfold success, photos. by rewrite sort_photos_length.
  - left. by eexists.
  - right. left. split; [done|]. eexists. split; [done|].
    destruct (decide (length (photo :: fetched) < fuel)) as [Hfuel|]; [|lia].
    destruct (upload_loop_returns host self fuel photos folder_name photos
                (mkLocals [] 0 ∅) s4) as (l & Hl & _).
    { change (size (∅ : gset string) + length photos < fuel).
      rewrite size_empty. unfold photos. by rewrite sort_photos_length. }
    rewrite Hloop in Hl. done.
Qed.

End RunOutcome.

(** ** The dictionary a run returns *)

(** X4.  [backup_photos] never lets an exception out: whatever the two services
    and the file system do, it returns a dictionary, provided the fuel
    exceeds the number of photos served.  The dictionary is
    [{'success': False, 'message': ...}] and nothing else, or it holds
    [success] true together with [total_photos], [uploaded_photos],
    [folder_name], [json_file] and [photos_info], with at least one and at
    most [total_photos] uploads and one manifest entry for each. *)
Theorem backup_photos_always_reports {World : Type} (host : Host World)
    (self : VKPhotoBackup) (fuel : nat) (user_id : string) (count : Z)
    (s0 : State World) :
  let s1 := (check_vk_token_validity host self s0).2 in
  let s2 := (check_yandex_disk_availability host self s1).2 in
  let fetch := get_profile_photos host self user_id count s2 in
  match (backup_photos host self fuel user_id count s0).1 with
  | Returned result => failure_report result ∨ success_report user_id result
  | Raised e => False
  | OutOfFuel => ∃ fetched, fetch.1 = Returned fetched ∧ fuel ≤ length fetched
  end.
Proof.
  intros s1 s2 fetch.
  destruct (backup_photos_outcome host self fuel user_id count s0)
    as [[text Hrun]|[[Hrun Hfuel]|(fetched & date & l & Hrun)]].
  - rewrite Hrun. left. by exists text.
  - by rewrite Hrun.
  - cbv zeta in Hrun.
    destruct Hrun as (_ & _ & Hfetch & _ & Hdate & _ & Hloop & Hpos & _ & ->).
    simpl. right.
    exists (length fetched), (successful_uploads l), date, (photos_info l).
    apply today_length in Hdate.
    pose proof (upload_loop_counts _ _ _ _ _ _ _ _ _ Hloop) as [_ Hlen].
    pose proof (upload_loop_bound _ _ _ _ _ _ _ _ _ Hloop) as Hbound.
    simpl in Hlen, Hbound. rewrite sort_photos_length in Hbound.
    split_and!; try done; lia.
Qed.

(** ** Faults of the preliminary steps *)

Section SetupFaults.

Context {World : Type}.
Variable host : Host World.
Variable self : VKPhotoBackup.

Lemma check_vk_token_validity_spec s :
  let a := send host (vk_profile_request self) (world s) in
  check_vk_token_validity host self s
  = (match a.1 with
     | Unreachable text => Raised (mkExn RequestException text)
     | Answered response =>
         if bool_decide (400 ≤ status_code response < 600)%Z
         then Raised (mkExn RequestException (http_error_text response))
         else match data_error (json response) with
              | Some error =>
                  Raised (mkExn ValueError
                    (if decide (default 0%Z (error_code error) = 5%Z)
                     then "Невалидный токен VK"
                     else "VK API Error: "
                          +:+ default "Неизвестная ошибка" (error_msg error)))
              | None => Returned true
              end
     end,
     mkState a.2 (trace s ++ [Sent (vk_profile_request self)])).
Proof.
  cbv zeta. unfold check_vk_token_validity, mbind, M_bind, bind, requests_get, request.
  fold (vk_profile_request self).
  destruct (send host _ (world s)) as [[response|text] w]; [|done].
  simpl. unfold raise_for_status.
  case_bool_decide; simpl; [done|].
  destruct (data_error (json response)) as [error|]; [|done].
  by case_decide.
Qed.

Lemma check_yandex_disk_availability_spec s :
  let a := send host (disk_probe_request self) (world s) in
  check_yandex_disk_availability host self s
  = (match a.1 with
     | Unreachable text => Raised (mkExn RequestException text)
     | Answered response =>
         if decide (status_code response = 401%Z)
         then Raised (mkExn ValueError "Невалидный токен Яндекс.Диска")
         else if decide (status_code response = 200%Z) then Returned (Some true)
         else if bool_decide (400 ≤ status_code response < 600)%Z
         then Raised (mkExn RequestException (http_error_text response))
         else Returned None
     end,
     mkState a.2 (trace s ++ [Sent (disk_probe_request self)])).
Proof.
  cbv zeta.
  unfold check_yandex_disk_availability, mbind, M_bind, bind, session_request, request.
  fold (disk_probe_request self).
  destruct (send host _ (world s)) as [[response|text] w]; [|done].
  simpl. unfold raise_for_status.
  repeat (case_decide || case_bool_decide); simpl; try done; lia.
Qed.

Lemma get_profile_photos_spec user_id count s :
  let a := send host (vk_photos_request self user_id count) (world s) in
  get_profile_photos host self user_id count s
  = (match a.1 with
     | Unreachable text => Raised (mkExn RequestException text)
     | Answered response =>
         if bool_decide (400 ≤ status_code response < 600)%Z
         then Raised (mkExn RequestException (http_error_text response))
         else match data_error (json response) with
              | Some error =>
                  Raised (mkExn ValueError
                    ("VK API Error: "
                     +:+ default "Неизвестная ошибка" (error_msg error)))
              | None => Returned (default [] (data_items (json response)))
              end
     end,
     mkState a.2 (trace s ++ [Sent (vk_photos_request self user_id count)])).
Proof.
  cbv zeta. unfold get_profile_photos, mbind, M_bind, bind, requests_get, request.
  fold (vk_photos_request self user_id count).
  destruct (send host _ (world s)) as [[response|text] w]; [|done].
  simpl. unfold raise_for_status.
  case_bool_decide; simpl; [done|].
  by destruct (data_error (json response)) as [error|].
Qed.

(** A step of [backup_photos] that raises ends the run with the text of
    its exception as the message, in the state that step left. *)
Lemma backup_photos_vk_fault fuel user_id count s0 e :
  (check_vk_token_validity host self s0).1 = Raised e →
  backup_photos host self fuel user_id count s0
  = (Returned (failure (exn_str e)), (check_vk_token_validity host self s0).2).
Proof.
  intros Hvk. unfold backup_photos, try_except, mbind, M_bind, bind.
  destruct (check_vk_token_validity host self s0) as [r s1]. simpl in Hvk. by subst r.
Qed.

Lemma backup_photos_disk_fault fuel user_id count s0 e :
  let s1 := (check_vk_token_validity host self s0).2 in
  returns (check_vk_token_validity host self s0).1 = true →
  (check_yandex_disk_availability host self s1).1 = Raised e →
  backup_photos host self fuel user_id count s0
  = (Returned (failure (exn_str e)), (check_yandex_disk_availability host self s1).2).
Proof.
  intros s1 Hvk Hdisk. unfold backup_photos, try_except, mbind, M_bind, bind.
  subst s1. destruct (check_vk_token_validity host self s0) as [[r1| |] s1]; try done.
  simpl in *.
  destruct (check_yandex_disk_availability host self s1) as [r s2].
  simpl in Hdisk. by subst r.
Qed.

Lemma backup_photos_fetch_fault fuel user_id count s0 e :
  let s1 := (check_vk_token_validity host self s0).2 in
  let s2 := (check_yandex_disk_availability host self s1).2 in
  returns (check_vk_token_validity host self s0).1 = true →
  returns (check_yandex_disk_availability host self s1).1 = true →
  (get_profile_photos host self user_id count s2).1 = Raised e →
  backup_photos host self fuel user_id count s0
  = (Returned (failure (exn_str e)), (get_profile_photos host self user_id count s2).2).
Proof.
  intros s1 s2 Hvk Hdisk Hfetch. unfold backup_photos, try_except, mbind, M_bind, bind.
  subst s2 s1.
  destruct (check_vk_token_validity host self s0) as [[r1| |] s1]; try done.
  simpl in *.
  destruct (check_yandex_disk_availability host self s1) as [[r2| |] s2]; try done.
  simpl in *.
  destruct (get_profile_photos host self user_id count s2) as [r s3].
  simpl in Hfetch. by subst r.
Qed.

Lemma backup_photos_nothing_fetched fuel user_id count s0 :
  let s1 := (check_vk_token_validity host self s0).2 in
  let s2 := (check_yandex_disk_availability host self s1).2 in
  returns (check_vk_token_validity host self s0).1 = true →
  returns (check_yandex_disk_availability host self s1).1 = true →
  (get_profile_photos host self user_id count s2).1 = Returned [] →
  backup_photos host self fuel user_id count s0
  = (Returned (failure "У пользователя нет фотографий в профиле или профиль закрыт"),
     (get_profile_photos host self user_id count s2).2).
Proof.
  intros s1 s2 Hvk Hdisk Hfetch. unfold backup_photos, try_except, mbind, M_bind, bind.
  subst s2 s1.
  destruct (check_vk_token_validity host self s0) as [[r1| |] s1]; try done.
  simpl in *.
  destruct (check_yandex_disk_availability host self s1) as [[r2| |] s2]; try done.
  simpl in *.
  destruct (get_profile_photos host self user_id count s2) as [r s3].
  simpl in Hfetch. by subst r.
Qed.

Lemma backup_photos_folder_fault fuel user_id count s0 fetched date e :
  let s1 := (check_vk_token_validity host self s0).2 in
  let s2 := (check_yandex_disk_availability host self s1).2 in
  let s3 := (get_profile_photos host self user_id count s2).2 in
  let folder_name := "VK_Photos_" +:+ user_id +:+ "_" +:+ date in
  returns (check_vk_token_validity host self s0).1 = true →
  returns (check_yandex_disk_availability host self s1).1 = true →
  (get_profile_photos host self user_id count s2).1 = Returned fetched →
  fetched ≠ [] →
  (today host s3).1 = Returned date →
  (create_yandex_folder host self folder_name s3).1 = Raised e →
  backup_photos host self fuel user_id count s0
  = (Returned (failure (exn_str e)), (create_yandex_folder host self folder_name s3).2).
Proof.
  intros s1 s2 s3 folder_name Hvk Hdisk Hfetch Hsome Hdate Hfolder.
  pose proof (today_state host s3) as Hs3.
  unfold backup_photos, try_except, mbind, M_bind, bind.
  subst s3 s2 s1.
  destruct (check_vk_token_validity host self s0) as [[r1| |] s1]; try done.
  simpl in *.
  destruct (check_yandex_disk_availability host self s1) as [[r2| |] s2]; try done.
  simpl in *.
  destruct (get_profile_photos host self user_id count s2) as [r s3].
  simpl in *. subst r.
  destruct fetched as [|photo fetched]; [done|].
  destruct (today host s3) as [r s3']. simpl in *. subst r s3'.
  fold folder_name.
  destruct (create_yandex_folder host self folder_name s3) as [r s4].
  simpl in Hfolder. by subst r.
Qed.

End SetupFaults.

(** X5.  When the request that checks the VK token fails, [backup_photos]
    returns a failure dictionary after that single request: with the text
    of the transport fault, with the text of the HTTP error for a status
    from 400 to 599 whatever the body says, with "Невалидный токен VK" for
    an error object of code 5, and with "VK API Error: " and the error's
    message (or a stock text when it has none) for any other error object.
    Only an answer without error object passes the check. *)
Theorem vk_token_fault_reported {World : Type} (host : Host World)
    (self : VKPhotoBackup) (fuel : nat) (user_id : string) (count : Z)
    (s0 : State World) :
  let a := send host (vk_profile_request self) (world s0) in
  let after := mkState a.2 (trace s0 ++ [Sent (vk_profile_request self)]) in
  let run := backup_photos host self fuel user_id count s0 in
  match a.1 with
  | Unreachable text => run = (Returned (failure text), after)
  | Answered response =>
      if bool_decide (400 ≤ status_code response < 600)%Z
      then run = (Returned (failure (http_error_text response)), after)
      else match data_error (json response) with
           | Some error =>
               run = (Returned (failure
                        (if decide (default 0%Z (error_code error) = 5%Z)
                         then "Невалидный токен VK"
                         else "VK API Error: "
                              +:+ default "Неизвестная ошибка" (error_msg error))),
                      after)
           | None => check_vk_token_validity host self s0 = (Returned true, after)
           end
  end.
Proof.
  intros a after run.
  pose proof (check_vk_token_validity_spec host self s0) as Hspec.
  cbv zeta in Hspec. fold a after in Hspec.
  assert (∀ e, check_vk_token_validity host self s0 = (Raised e, after) →
               run = (Returned (failure (exn_str e)), after)) as Hfault.
  { intros e Heq. unfold run.
    rewrite (backup_photos_vk_fault host self fuel user_id count s0 e);
      by rewrite Heq. }
  destruct a.1 as [response|text]; [|by apply (Hfault _ Hspec)].
  case_bool_decide; [by apply (Hfault _ Hspec)|].
  destruct (data_error (json response)) as [error|]; [|done].
  by apply (Hfault _ Hspec).
Qed.

(** X6.  Once the VK token has passed, the answer to the probe of the disk
    decides: a transport fault, status 401 and any other status from 400
    to 599 end the run with a failure dictionary after that request, with
    "Невалидный токен Яндекс.Диска" as the message for 401; status 200
    passes with [True]; and any other status passes as well, the check
    returning no value. *)
Theorem disk_probe_fault_reported {World : Type} (host : Host World)
    (self : VKPhotoBackup) (fuel : nat) (user_id : string) (count : Z)
    (s0 : State World) :
  let s1 := (check_vk_token_validity host self s0).2 in
  let a := send host (disk_probe_request self) (world s1) in
  let after := mkState a.2 (trace s1 ++ [Sent (disk_probe_request self)]) in
  let run := backup_photos host self fuel user_id count s0 in
  returns (check_vk_token_validity host self s0).1 = true →
  match a.1 with
  | Unreachable text => run = (Returned (failure text), after)
  | Answered response =>
      if decide (status_code response = 401%Z)
      then run = (Returned (failure "Невалидный токен Яндекс.Диска"), after)
      else if decide (status_code response = 200%Z)
      then check_yandex_disk_availability host self s1 = (Returned (Some true), after)
      else if bool_decide (400 ≤ status_code response < 600)%Z
      then run = (Returned (failure (http_error_text response)), after)
      else check_yandex_disk_availability host self s1 = (Returned None, after)
  end.
Proof.
  intros s1 a after run Hvk.
  pose proof (check_yandex_disk_availability_spec host self s1) as Hspec.
  cbv zeta in Hspec. fold a after in Hspec.
  assert (∀ e, check_yandex_disk_availability host self s1 = (Raised e, after) →
               run = (Returned (failure (exn_str e)), after)) as Hfault.
  { intros e Heq. unfold run.
    rewrite (backup_photos_disk_fault host self fuel user_id count s0 e);
      fold s1; by rewrite ?Heq. }
  destruct a.1 as [response|text]; [|by apply (Hfault _ Hspec)].
  repeat case_decide; try done; by apply (Hfault _ Hspec).
Qed.

Lemma disk_probe_fault_reported_witness :
  let s0 := Simulation.start Simulation.five_photos [] in
  backup_photos Scenarios.locked_host Simulation.me 10 "1" 5 s0
  = (Returned (failure "Невалидный токен Яндекс.Диска"),
     mkState (world s0)
       [Sent (vk_profile_request Simulation.me);
        Sent (disk_probe_request Simulation.me)]).
Proof.
  intros s0.
  apply (disk_probe_fault_reported Scenarios.locked_host Simulation.me 10 "1" 5%Z s0).
  vm_compute. reflexivity.
Defined.

(** X7.  Once both tokens have passed, the answer to the request for the photos
    decides: a transport fault and a status from 400 to 599 end the run
    with a failure dictionary after that request, and so does an error
    object, with "VK API Error: " and its message; an answer without the
    ['response'] or the ['items'] key counts as one without photos and
    ends the run with the message for an empty profile; only an answer
    with photos goes on. *)
Theorem fetch_fault_reported {World : Type} (host : Host World)
    (self : VKPhotoBackup) (fuel : nat) (user_id : string) (count : Z)
    (s0 : State World) :
  let s1 := (check_vk_token_validity host self s0).2 in
  let s2 := (check_yandex_disk_availability host self s1).2 in
  let a := send host (vk_photos_request self user_id count) (world s2) in
  let after := mkState a.2 (trace s2 ++ [Sent (vk_photos_request self user_id count)]) in
  let run := backup_photos host self fuel user_id count s0 in
  returns (check_vk_token_validity host self s0).1 = true →
  returns (check_yandex_disk_availability host self s1).1 = true →
  match a.1 with
  | Unreachable text => run = (Returned (failure text), after)
  | Answered response =>
      if bool_decide (400 ≤ status_code response < 600)%Z
      then run = (Returned (failure (http_error_text response)), after)
      else match data_error (json response) with
           | Some error =>
               run = (Returned (failure
                        ("VK API Error: "
                         +:+ default "Неизвестная ошибка" (error_msg error))), after)
           | None =>
               match data_items (json response) with
               | None | Some [] =>
                   run = (Returned (failure
                     "У пользователя нет фотографий в профиле или профиль закрыт"),
                          after)
               | Some (photo :: photos) =>
                   get_profile_photos host self user_id count s2
                   = (Returned (photo :: photos), after)
               end
           end
  end.
Proof.
  intros s1 s2 a after run Hvk Hdisk.
  pose proof (get_profile_photos_spec host self user_id count s2) as Hspec.
  cbv zeta in Hspec. fold a after in Hspec.
  assert (∀ e, get_profile_photos host self user_id count s2 = (Raised e, after) →
               run = (Returned (failure (exn_str e)), after)) as Hfault.
  { intros e Heq. unfold run.
    rewrite (backup_photos_fetch_fault host self fuel user_id count s0 e);
      fold s1 s2; by rewrite ?Heq. }
  assert (get_profile_photos host self user_id count s2 = (Returned [], after) →
          run = (Returned (failure
                   "У пользователя нет фотографий в профиле или профиль закрыт"),
                 after)) as Hnone.
  { intros Heq. unfold run.
    rewrite (backup_photos_nothing_fetched host self fuel user_id count s0);
      fold s1 s2; by rewrite ?Heq. }
  destruct a.1 as [response|text]; [|by apply (Hfault _ Hspec)].
  case_bool_decide; [by apply (Hfault _ Hspec)|].
  destruct (data_error (json response)) as [error|]; [by apply (Hfault _ Hspec)|].
  destruct (data_items (json response)) as [[|photo photos]|]; by auto.
Qed.

Lemma fetch_fault_reported_witness :
  let s0 := Simulation.start Simulation.five_photos [] in
  backup_photos Scenarios.private_host Simulation.me 10 "1" 5 s0
  = (Returned (failure "VK API Error: This profile is private"),
     mkState (world s0)
       [Sent (vk_profile_request Simulation.me);
        Sent (disk_probe_request Simulation.me);
        Sent (vk_photos_request Simulation.me "1" 5)]).
Proof.
  intros s0.
  apply (fetch_fault_reported Scenarios.private_host Simulation.me 10 "1" 5%Z s0).
  - vm_compute. reflexivity.
  - vm_compute. reflexivity.
Defined.

Example expired_token_run :
  let s0 := Simulation.start Simulation.five_photos [] in
  backup_photos Scenarios.expired_host Simulation.me 10 "1" 5 s0
  = (Returned (failure "Невалидный токен VK"),
     mkState (world s0) [Sent (vk_profile_request Simulation.me)]).
Proof. vm_compute. reflexivity. Qed.

(** X8.  When the folder cannot be provided, the run ends there: the dictionary
    is a failure with the text of the fault, no upload request has been
    sent and no manifest has been written. *)
Theorem folder_fault_is_fatal {World : Type} (host : Host World)
    (self : VKPhotoBackup) (fuel : nat) (user_id : string) (count : Z)
    (s0 : State World) (fetched : list Photo) (date : string) (e : exn) :
  let s1 := (check_vk_token_validity host self s0).2 in
  let s2 := (check_yandex_disk_availability host self s1).2 in
  let s3 := (get_profile_photos host self user_id count s2).2 in
  let folder_name := "VK_Photos_" +:+ user_id +:+ "_" +:+ date in
  let made := create_yandex_folder host self folder_name s3 in
  let run := backup_photos host self fuel user_id count s0 in
  returns (check_vk_token_validity host self s0).1 = true →
  returns (check_yandex_disk_availability host self s1).1 = true →
  (get_profile_photos host self user_id count s2).1 = Returned fetched →
  fetched ≠ [] →
  (today host s3).1 = Returned date →
  made.1 = Raised e →
  run = (Returned (failure (exn_str e)), made.2)
  ∧ requests_of POST (trace run.2) = requests_of POST (trace s0)
  ∧ manifests (trace run.2) = manifests (trace s0).
Proof.
  intros s1 s2 s3 folder_name made run Hvk Hdisk Hfetch Hsome Hdate Hmade.
  assert (run = (Returned (failure (exn_str e)), made.2)) as ->
    by by apply backup_photos_folder_fault with fetched.
  split; [done|]. simpl. subst made s3 s2 s1. split.
  - rewrite spares_create_yandex_folder, spares_get_profile_photos,
      spares_check_yandex_disk_availability, spares_check_vk_token_validity; done.
  - rewrite quiet_create_yandex_folder, quiet_get_profile_photos,
      quiet_check_yandex_disk_availability, quiet_check_vk_token_validity; done.
Qed.

Lemma folder_fault_is_fatal_witness :
  let s0 := Simulation.start Simulation.five_photos [] in
  let run := backup_photos Scenarios.full_host Simulation.me 10 "1" 5 s0 in
  run.1 = Returned (failure "HTTP 507")
  ∧ requests_of POST (trace run.2) = []
  ∧ manifests (trace run.2) = [].
Proof.
  intros s0 run.
  destruct (folder_fault_is_fatal Scenarios.full_host Simulation.me 10 "1" 5%Z s0
              Simulation.five_photos "2023-11-15"
              (mkExn RequestException "HTTP 507"))
    as (Hrun & Hposts & Hmanifests).
  - vm_compute. reflexivity.
  - vm_compute. reflexivity.
  - vm_compute. reflexivity.
  - intros Heq. discriminate Heq.
  - vm_compute. reflexivity.
  - vm_compute. reflexivity.
  - split; [exact (f_equal fst Hrun)|]. split; [exact Hposts | exact Hmanifests].
Defined.

(** X9.  When the manifest cannot be written, a run that uploaded photos still
    ends in a failure dictionary, whose message is the text of the write
    fault; the write was attempted once, after the uploads. *)
Theorem manifest_fault_reported {World : Type} (host : Host World)
    (self : VKPhotoBackup) (fuel : nat) (user_id : string) (count : Z)
    (s0 : State World) (fetched : list Photo) (date : string) (l : Locals)
    (text : string) :
  let s1 := (check_vk_token_validity host self s0).2 in
  let s2 := (check_yandex_disk_availability host self s1).2 in
  let s3 := (get_profile_photos host self user_id count s2).2 in
  let folder_name := "VK_Photos_" +:+ user_id +:+ "_" +:+ date in
  let photos := sort_photos fetched in
  let s4 := (create_yandex_folder host self folder_name s3).2 in
  let loop := upload_loop host self fuel photos folder_name photos (mkLocals [] 0 ∅) s4 in
  let json_filename := "photos_info_" +:+ user_id +:+ ".json" in
  let written := write_json host json_filename (photos_info l) (world loop.2) in
  let run := backup_photos host self fuel user_id count s0 in
  returns (check_vk_token_validity host self s0).1 = true →
  returns (check_yandex_disk_availability host self s1).1 = true →
  (get_profile_photos host self user_id count s2).1 = Returned fetched →
  (today host s3).1 = Returned date →
  returns (create_yandex_folder host self folder_name s3).1 = true →
  loop.1 = Returned l →
  0 < successful_uploads l →
  written.1 = Some text →
  run = (Returned (failure text),
         mkState written.2 (trace loop.2 ++ [Wrote json_filename (photos_info l)])).
Proof.
  intros s1 s2 s3 folder_name photos s4 loop json_filename written run
    Hvk Hdisk Hfetch Hdate Hfolder Hloop Hpos Hwrite.
  pose proof (today_state host s3) as Hs3.
  subst run. unfold backup_photos, try_except, mbind, M_bind, bind.
  subst written loop s4 photos s3 s2 s1.
  destruct (check_vk_token_validity host self s0) as [[r1| |] s1]; try done.
  simpl in *.
  destruct (check_yandex_disk_availability host self s1) as [[r2| |] s2]; try done.
  simpl in *.
  destruct (get_profile_photos host self user_id count s2) as [r3 s3].
  simpl in *. subst r3.
  destruct fetched as [|photo fetched].
  { simpl in Hloop. injection Hloop as <-. simpl in Hpos. lia. }
  destruct (today host s3) as [r4 s3']. simpl in *. subst r4 s3'.
  fold folder_name.
  destruct (create_yandex_folder host self folder_name s3) as [[r5| |] s4]; try done.
  simpl in *.
  destruct (upload_loop _ _ _ _ _ _ _ _) as [r6 s5]. simpl in *. subst r6.
  rewrite decide_False by lia.
  unfold save_photos_info. fold json_filename.
  destruct (write_json host json_filename (photos_info l) (world s5)) as [r7 w].
  simpl in Hwrite. by subst r7.
Qed.

Lemma manifest_fault_reported_witness :
  let s0 := Simulation.start Simulation.five_photos [] in
  let run := backup_photos Scenarios.readonly_host Simulation.me 10 "1" 5 s0 in
  run.1 = Returned (failure "[Errno 13] Permission denied")
  ∧ length (requests_of POST (trace run.2)) = 5.
Proof.
  intros s0 run.
  pose proof (manifest_fault_reported Scenarios.readonly_host Simulation.me 10 "1" 5%Z s0
                Simulation.five_photos "2023-11-15"
                (mkLocals
                   [mkEntry "10_2020-09-13.jpg" "z"; mkEntry "7.jpg" "y";
                    mkEntry "3.jpg" "x"; mkEntry "10_2021-01-07.jpg" "m";
                    mkEntry "0.jpg" "s"] 5
                   {[ "10_2020-09-13.jpg"; "7.jpg"; "3.jpg"; "10_2021-01-07.jpg";
                      "0.jpg" ]})
                "[Errno 13] Permission denied") as Hrun.
  cbv zeta in Hrun.
  split.
  - refine (f_equal fst (Hrun _ _ _ _ _ _ _ _)).
    + vm_compute. reflexivity.
    + vm_compute. reflexivity.
    + vm_compute. reflexivity.
    + vm_compute. reflexivity.
    + vm_compute. reflexivity.
    + vm_compute. reflexivity.
    + simpl. lia.
    + vm_compute. reflexivity.
  - vm_compute. reflexivity.
Defined.

(** ** The manifest *)

Section Manifest.

Context {World : Type}.
Variable host : Host World.
Variable self : VKPhotoBackup.

(** One turn of the loop: the photo fails and the manifest stays, the
    tracking set and the trace only growing; or it is uploaded, and its
    entry, its name and its request are added. *)
Lemma process_photo_step fuel photos folder photo l s l1 :
  (process_photo host self fuel photos folder photo l s).1 = Returned l1 →
  let s1 := (process_photo host self fuel photos folder photo l s).2 in
  (photos_info l1 = photos_info l
   ∧ used_filenames l ⊆ used_filenames l1
   ∧ ∃ more, trace s1 = trace s ++ more)
  ∨ ∃ url tag name,
      get_largest_photo_size photo = Returned (url, tag)
      ∧ photos_info l1 = photos_info l ++ [mkEntry name tag]
      ∧ (name ∉ used_filenames l) ∧ ends_with ".jpg" name
      ∧ used_filenames l1 = {[ name ]} ∪ used_filenames l
      ∧ trace s1 = trace s ++ [Sent (upload_request self url name folder)].
Proof.
  unfold process_photo.
  destruct (get_largest_photo_size photo) as [[url tag]|e|] eqn:Hsize; simpl.
  - pose proof (generate_filename_used (host_utc_offset host) fuel
      (mkObjects photo photos (used_filenames l))) as Hused.
    pose proof (generate_filename_fresh (host_utc_offset host) fuel
      (mkObjects photo photos (used_filenames l))) as Hfresh.
    destruct (generate_filename _ _ _) as [[name|e|] o]; simpl in *; [| |done].
    + rewrite upload_photo_to_yandex_spec. cbv zeta.
      fold (upload_request self url name folder).
      destruct (Hfresh name eq_refl) as [Hnew Hjpg].
      destruct (match (send host (upload_request self url name folder) (world s)).1 with
                | Answered response =>
                    if decide (status_code response = 202%Z)
                    then Returned (Some true)
                    else if bool_decide (400 ≤ status_code response < 600)%Z
                    then Raised (mkExn RequestException (http_error_text response))
                    else Returned None
                | Unreachable text => Raised (mkExn RequestException text)
                end) as [r|e|]; simpl; [| |done]; intros [= <-]; simpl.
      * right. exists url, tag, name. by rewrite Hused.
      * left. rewrite Hused. split; [done|]. split; [set_solver | by eexists].
    + intros [= <-]. simpl. left. rewrite Hused.
      split; [done|]. split; [done|]. exists []. by rewrite app_nil_r.
  - intros [= <-]. left. split; [done|]. split; [done|].
    exists []. by rewrite app_nil_r.
  - done.
Qed.

Lemma manifest_inv_step fuel photos folder photo l s l1 :
  photo ∈ photos →
  manifest_inv self photos folder l s →
  (process_photo host self fuel photos folder photo l s).1 = Returned l1 →
  manifest_inv self photos folder l1
    (process_photo host self fuel photos folder photo l s).2.
Proof.
  intros Hphoto [Hnodup Hentries] Hstep.
  destruct (process_photo_step fuel photos folder photo l s l1 Hstep)
    as [(Hinfo & Hused & more & Htrace)
       |(url & tag & name & Hsize & Hinfo & Hnew & Hjpg & Hused & Htrace)];
    cbv zeta in Htrace; unfold manifest_inv; rewrite Htrace, Hinfo.
  - split; [done|]. intros entry Hin.
    destruct (Hentries entry Hin) as (Huse & Hext & p & u & Hp & Hu & Hsent).
    split; [set_solver|]. split; [done|].
    exists p, u. split; [done|]. split; [done|].
    apply elem_of_app. by left.
  - rewrite fmap_app. simpl. split.
    + apply NoDup_app. split; [done|]. split; [|apply NoDup_singleton].
      intros x Hx ->%list_elem_of_singleton.
      apply list_elem_of_fmap in Hx as (entry & -> & Hin).
      by destruct (Hentries entry Hin) as (Huse & _).
    + intros entry [Hin| ->%list_elem_of_singleton]%elem_of_app.
      * destruct (Hentries entry Hin) as (Huse & Hext & p & u & Hp & Hu & Hsent).
        rewrite Hused. split; [set_solver|]. split; [done|].
        exists p, u. split; [done|]. split; [done|].
        apply elem_of_app. by left.
      * simpl. rewrite Hused. split; [set_solver|]. split; [done|].
        exists photo, url. split; [done|]. split; [done|].
        apply elem_of_app. right. by left.
Qed.

Lemma manifest_inv_loop fuel photos folder todo l s l' :
  todo ⊆ photos →
  manifest_inv self photos folder l s →
  (upload_loop host self fuel photos folder todo l s).1 = Returned l' →
  manifest_inv self photos folder l'
    (upload_loop host self fuel photos folder todo l s).2.
Proof.
  revert l s. induction todo as [|photo todo IH]; intros l s Hsub Hinv.
  - simpl. by intros [= <-].
  - rewrite upload_loop_cons.
    pose proof (manifest_inv_step fuel photos folder photo l s) as Hstep.
    destruct (process_photo _ _ _ _ _ _ _ _) as [[l1|e|] s1]; [|done..].
    apply IH; [set_solver|]. apply Hstep; [set_solver | done | done].
Qed.

End Manifest.

(** X10.  In the dictionary of a run that succeeded, the file names of
    [photos_info] are pairwise distinct and end with [.jpg]; each entry
    stands for one of the photos VK served, carries the tag of that photo's
    largest variant, and an upload of that variant under the entry's name
    into the run's folder was requested; and the one manifest written
    holds these same entries. *)
Theorem manifest_lists_uploaded_photos {World : Type} (host : Host World)
    (self : VKPhotoBackup) (fuel : nat) (user_id : string) (count : Z)
    (s0 : State World) (result : gmap string value) (fetched : list Photo)
    (folder_name : string) (entries : list Entry) :
  let s1 := (check_vk_token_validity host self s0).2 in
  let s2 := (check_yandex_disk_availability host self s1).2 in
  let run := backup_photos host self fuel user_id count s0 in
  run.1 = Returned result →
  (get_profile_photos host self user_id count s2).1 = Returned fetched →
  result !! "folder_name" = Some (VStr folder_name) →
  result !! "photos_info" = Some (VList entries) →
  NoDup (file_name <$> entries)
  ∧ (∀ entry, entry ∈ entries →
       ends_with ".jpg" (file_name entry)
       ∧ ∃ photo url,
           photo ∈ fetched
           ∧ get_largest_photo_size photo = Returned (url, size_tag entry)
           ∧ Sent (upload_request self url (file_name entry) folder_name)
             ∈ trace run.2)
  ∧ manifests (trace run.2)
    = manifests (trace s0) ++ [("photos_info_" +:+ user_id +:+ ".json", entries)].
Proof.
  intros s1 s2 run Hrun Hfetch Hfolder Hinfo.
  destruct (backup_photos_outcome host self fuel user_id count s0)
    as [[text Hfail]|[[Hfuel _]|(fetched' & date & l & Hok)]].
  - fold run in Hfail. rewrite Hrun in Hfail. injection Hfail as ->.
    destruct (failure_lookup text) as (_ & _ & _ & _).
    unfold failure in Hinfo. by simplify_map_eq.
  - fold run in Hfuel. by rewrite Hrun in Hfuel.
  - cbv zeta in Hok. fold s1 s2 run in Hok.
    destruct Hok as (_ & _ & Hfetch' & _ & Hdate & _ & Hloop & Hpos & Hwrite & Heq).
    rewrite Hfetch in Hfetch'. injection Hfetch' as <-.
    rewrite Heq in Hrun. simpl in Hrun. injection Hrun as <-.
    unfold success in Hfolder, Hinfo. simplify_map_eq.
    destruct (manifest_inv_loop host self fuel (sort_photos fetched)
                ("VK_Photos_" +:+ user_id +:+ "_" +:+ date)
                (sort_photos fetched) (mkLocals [] 0 ∅)
                (create_yandex_folder host self
                   ("VK_Photos_" +:+ user_id +:+ "_" +:+ date)
                   (get_profile_photos host self user_id count s2).2).2 l)
      as [Hnodup Hentries]; [done | | done |].
    { split; [constructor|]. by intros entry ?%elem_of_nil. }
    pose proof (quiet_upload_loop host self fuel (sort_photos fetched)
                  ("VK_Photos_" +:+ user_id +:+ "_" +:+ date)
                  (sort_photos fetched) (mkLocals [] 0 ∅)
                  (create_yandex_folder host self
                     ("VK_Photos_" +:+ user_id +:+ "_" +:+ date)
                     (get_profile_photos host self user_id count s2).2).2) as Hq5.
    rewrite Heq. simpl. split; [done|]. split.
    + intros entry Hin.
      destruct (Hentries entry Hin) as (_ & Hjpg & photo & url & Hphoto & Hsize & Hsent).
      split; [done|]. exists photo, url.
      split; [by rewrite <- (sort_photos_perm fetched)|]. split; [done|].
      apply elem_of_app. by left.
    + rewrite manifests_app. simpl. f_equal.
      rewrite Hq5, quiet_create_yandex_folder, quiet_get_profile_photos.
      subst s2 s1.
      by rewrite quiet_check_yandex_disk_availability, quiet_check_vk_token_validity.
Qed.

Lemma manifest_lists_uploaded_photos_witness :
  let s0 := Simulation.start Simulation.five_photos [202; 500; 202; 202; 202]%Z in
  let run := backup_photos Simulation.sim_host Simulation.me 10 "1" 5 s0 in
  let entries :=
    [mkEntry "10_2020-09-13.jpg" "z"; mkEntry "3.jpg" "x";
     mkEntry "10_2021-01-07.jpg" "m"; mkEntry "0.jpg" "s"] in
  NoDup (file_name <$> entries)
  ∧ manifests (trace run.2) = [("photos_info_1.json", entries)].
Proof.
  intros s0 run entries.
  destruct (manifest_lists_uploaded_photos Simulation.sim_host Simulation.me 10 "1" 5%Z s0
              (result_of run.1) Simulation.five_photos "VK_Photos_1_2023-11-15" entries)
    as (Hnodup & _ & Hmanifest).
  - vm_compute. reflexivity.
  - vm_compute. reflexivity.
  - vm_compute. reflexivity.
  - vm_compute. reflexivity.
  - split; [exact Hnodup | exact Hmanifest].
Defined.

(** ** The traffic of a run *)

Section Traffic.

Context {World : Type}.
Variable host : Host World.
Variable self : VKPhotoBackup.

Lemma spares_sends {A} meth n (m : M A) : spares meth m → sends (World:=World) meth n m.
Proof. intros Hm s. rewrite Hm. lia. Qed.

Lemma sends_bind {A B} meth a b (m : M A) (k : A → M B) :
  sends meth a m → (∀ x, sends meth b (k x)) →
  sends meth (a + b) (bind (World:=World) m k).
Proof.
  intros Hm Hk s. unfold bind. specialize (Hm s).
  destruct (m s) as [[x|e|] s']; simpl in *; [|lia..].
  specialize (Hk x s'). lia.
Qed.

Lemma sends_try_except {A} meth a b (m : M A) catches (handler : exn → M A) :
  sends meth a m → (∀ e, sends meth b (handler e)) →
  sends meth (a + b) (try_except (World:=World) m catches handler).
Proof.
  intros Hm Hh s. unfold try_except. specialize (Hm s).
  destruct (m s) as [[x|e|] s']; simpl in *; [lia| |lia].
  destruct (catches e); simpl; [|lia]. specialize (Hh e s'). lia.
Qed.

Lemma sends_request meth r : sends meth 1 (request host r).
Proof.
  intros s. unfold request.
  destruct (send host r (world s)) as [[response|text] w]; simpl;
    rewrite requests_of_app, length_app; simpl; case_decide; simpl; lia.
Qed.

Lemma sends_check_vk_token_validity meth :
  sends meth 1 (check_vk_token_validity host self).
Proof.
  unfold check_vk_token_validity, mbind, M_bind, requests_get.
  apply (sends_bind meth 1 0); [apply sends_request|].
  intros response. apply spares_sends. step_by_step.
Qed.

Lemma sends_check_yandex_disk_availability meth :
  sends meth 1 (check_yandex_disk_availability host self).
Proof.
  unfold check_yandex_disk_availability, mbind, M_bind, session_request.
  apply (sends_bind meth 1 0); [apply sends_request|].
  intros response. apply spares_sends. step_by_step.
Qed.

Lemma sends_get_profile_photos meth user_id count :
  sends meth 1 (get_profile_photos host self user_id count).
Proof.
  unfold get_profile_photos, mbind, M_bind, requests_get.
  apply (sends_bind meth 1 0); [apply sends_request|].
  intros response. apply spares_sends. step_by_step.
Qed.

(** The folder costs one lookup and at most one creation. *)
Lemma sends_create_yandex_folder meth name :
  sends meth 1 (create_yandex_folder host self name).
Proof.
  unfold create_yandex_folder, check_folder_exists, mbind, M_bind, session_request.
  destruct meth.
  - apply (sends_bind GET 1 0).
    + apply (sends_try_except GET 1 0).
      * apply (sends_bind GET 1 0); [apply sends_request|].
        intros ?. apply spares_sends. step_by_step.
      * intros ?. apply spares_sends. step_by_step.
    + intros []; apply spares_sends; step_by_step.
  - apply (sends_bind PUT 0 1).
    + apply spares_sends. step_by_step.
    + intros []; [apply spares_sends; step_by_step|].
      apply (sends_bind PUT 1 0); [apply sends_request|].
      intros ?. apply spares_sends. step_by_step.
  - apply spares_sends, spares_create_yandex_folder.
Qed.

(** A turn of the loop sends nothing, or the one upload request. *)
Lemma process_photo_traffic fuel photos folder photo l s :
  let s1 := (process_photo host self fuel photos folder photo l s).2 in
  trace s1 = trace s
  ∨ ∃ url name, trace s1 = trace s ++ [Sent (upload_request self url name folder)].
Proof.
  unfold process_photo.
  destruct (get_largest_photo_size photo) as [[url tag]|e|]; simpl; [|by left..].
  destruct (generate_filename _ _ _) as [[name|e|] o]; simpl; [|by left..].
  right. exists url, name.
  rewrite upload_photo_to_yandex_spec. cbv zeta.
  fold (upload_request self url name folder).
  by destruct (match (send host (upload_request self url name folder) (world s)).1 with
               | Answered response =>
                   if decide (status_code response = 202%Z)
                   then Returned (Some true)
                   else if bool_decide (400 ≤ status_code response < 600)%Z
                   then Raised (mkExn RequestException (http_error_text response))
                   else Returned None
               | Unreachable text => Raised (mkExn RequestException text)
               end) as [r|e|].
Qed.

Lemma sends_process_photo meth fuel photos folder photo l :
  sends meth (if decide (meth = POST) then 1 else 0)
    (process_photo host self fuel photos folder photo l).
Proof.
  intros s.
  destruct (process_photo_traffic fuel photos folder photo l s)
    as [Htrace|(url & name & Htrace)]; cbv zeta in Htrace; rewrite Htrace; [lia|].
  rewrite requests_of_app, length_app. simpl.
  destruct meth; simpl; lia.
Qed.

Lemma sends_upload_loop meth fuel photos folder todo l :
  sends meth (if decide (meth = POST) then length todo else 0)
    (upload_loop host self fuel photos folder todo l).
Proof.
  revert l. induction todo as [|photo todo IH]; intros l s.
  - simpl. lia.
  - rewrite upload_loop_cons.
    pose proof (sends_process_photo meth fuel photos folder photo l s) as Hstep.
    destruct (process_photo _ _ _ _ _ _ _ _) as [[l1|e|] s1]; simpl in *.
    + specialize (IH l1 s1). destruct meth; simpl in *; lia.
    + destruct meth; simpl in *; lia.
    + destruct meth; simpl in *; lia.
Qed.

Lemma spares_save_photos_info meth entries user_id :
  spares meth (save_photos_info host entries user_id).
Proof.
  intros s. unfold save_photos_info.
  destruct (write_json host _ _ _) as [[text|] w]; simpl;
    rewrite requests_of_app; simpl; by rewrite app_nil_r.
Qed.

End Traffic.

(** Closes a bound on the requests of a run from the bounds of its
    steps. *)
Ltac tally meth :=
  destruct meth;
  repeat match goal with
         | H : _ ≠ _ → _ |- _ => first [specialize (H ltac:(done)) | clear H]
         end;
  simpl in *; lia.

(** X11.  A run never repeats a request.  It sends at most four GET requests
    (the two checks, the listing of the photos and the lookup of the
    folder), at most one PUT (the creation of the folder), at most one
    POST for each photo that VK listed, and it writes at most one
    manifest. *)
Theorem run_sends_each_request_once {World : Type} (host : Host World)
    (self : VKPhotoBackup) (fuel : nat) (user_id : string) (count : Z)
    (s0 : State World) :
  let s1 := (check_vk_token_validity host self s0).2 in
  let s2 := (check_yandex_disk_availability host self s1).2 in
  let listed :=
    match (get_profile_photos host self user_id count s2).1 with
    | Returned fetched => length fetched
    | _ => 0
    end in
  let run := backup_photos host self fuel user_id count s0 in
  length (requests_of GET (trace run.2)) ≤ length (requests_of GET (trace s0)) + 4
  ∧ length (requests_of PUT (trace run.2)) ≤ length (requests_of PUT (trace s0)) + 1
  ∧ length (requests_of POST (trace run.2))
    ≤ length (requests_of POST (trace s0)) + listed
  ∧ length (manifests (trace run.2)) ≤ length (manifests (trace s0)) + 1.
Proof.
  intros s1 s2 listed run.
  assert (∀ meth,
    length (requests_of meth (trace run.2))
    ≤ length (requests_of meth (trace s0))
      + match meth with GET => 4 | PUT => 1 | POST => listed end) as Hall.
  { intros meth. subst run listed s2 s1.
    unfold backup_photos, try_except, mbind, M_bind, bind.
    pose proof (sends_check_vk_token_validity host self meth s0) as H1.
    pose proof (λ H, f_equal length
                  (spares_check_vk_token_validity host self meth H s0)) as H1'.
    destruct (check_vk_token_validity host self s0) as [[r1|e|] s1]; simpl in *;
      [|tally meth..].
    pose proof (sends_check_yandex_disk_availability host self meth s1) as H2.
    pose proof (λ H, f_equal length
                  (spares_check_yandex_disk_availability host self meth H s1)) as H2'.
    destruct (check_yandex_disk_availability host self s1) as [[r2|e|] s2]; simpl in *;
      [|tally meth..].
    pose proof (sends_get_profile_photos host self meth user_id count s2) as H3.
    pose proof (λ H, f_equal length
                  (spares_get_profile_photos host self meth user_id count H s2)) as H3'.
    destruct (get_profile_photos host self user_id count s2) as [[fetched|e|] s3];
      simpl in *; [|tally meth..].
    destruct fetched as [|photo fetched]; [simpl; tally meth|].
    pose proof (today_state host s3) as Hs.
    destruct (today host s3) as [[date|e|] s3']; simpl in Hs; subst s3'; simpl;
      [|tally meth..].
    set (folder_name := "VK_Photos_" +:+ user_id +:+ "_" +:+ date).
    pose proof (sends_create_yandex_folder host self meth folder_name s3) as H4.
    pose proof (f_equal length (spares_create_yandex_folder host self folder_name s3))
      as H4'.
    destruct (create_yandex_folder host self folder_name s3) as [[r|e|] s4];
      simpl in *; [|tally meth..].
    pose proof (sends_upload_loop host self meth fuel (sort_photos (photo :: fetched))
                  folder_name (sort_photos (photo :: fetched)) (mkLocals [] 0 ∅) s4)
      as H5.
    rewrite sort_photos_length in H5.
    destruct (upload_loop _ _ _ _ _ _ _ _) as [[l|e|] s5]; simpl in *;
      [|tally meth..].
    destruct (decide (successful_uploads l = 0)); simpl; [tally meth|].
    pose proof (f_equal length
                  (spares_save_photos_info host meth (photos_info l) user_id s5)) as H6.
    destruct (save_photos_info host (photos_info l) user_id s5) as [[name|e|] s6];
      simpl in *; tally meth. }
  split; [apply (Hall GET)|]. split; [apply (Hall PUT)|]. split; [apply (Hall POST)|].
  subst run s2 s1. clear Hall listed.
  unfold backup_photos, try_except, mbind, M_bind, bind.
  pose proof (quiet_check_vk_token_validity host self s0) as Q1.
  destruct (check_vk_token_validity host self s0) as [[r1|e|] s1]; simpl in *;
    [|rewrite Q1; lia..].
  pose proof (quiet_check_yandex_disk_availability host self s1) as Q2.
  destruct (check_yandex_disk_availability host self s1) as [[r2|e|] s2]; simpl in *;
    [|rewrite Q2, Q1; lia..].
  pose proof (quiet_get_profile_photos host self user_id count s2) as Q3.
  destruct (get_profile_photos host self user_id count s2) as [[fetched|e|] s3];
    simpl in *; [|rewrite Q3, Q2, Q1; lia..].
  destruct fetched as [|photo fetched]; [simpl; rewrite Q3, Q2, Q1; lia|].
  pose proof (today_state host s3) as Hs.
  destruct (today host s3) as [[date|e|] s3']; simpl in Hs; subst s3'; simpl;
    [|rewrite Q3, Q2, Q1; lia..].
  set (folder_name := "VK_Photos_" +:+ user_id +:+ "_" +:+ date).
  pose proof (quiet_create_yandex_folder host self folder_name s3) as Q4.
  destruct (create_yandex_folder host self folder_name s3) as [[r|e|] s4];
    simpl in *; [|rewrite Q4, Q3, Q2, Q1; lia..].
  pose proof (quiet_upload_loop host self fuel (sort_photos (photo :: fetched))
                folder_name (sort_photos (photo :: fetched)) (mkLocals [] 0 ∅) s4)
    as Q5.
  destruct (upload_loop _ _ _ _ _ _ _ _) as [[l|e|] s5]; simpl in *;
    [|rewrite Q5, Q4, Q3, Q2, Q1; lia..].
  case_decide; simpl; [rewrite Q5, Q4, Q3, Q2, Q1; lia|].
  unfold save_photos_info.
  destruct (write_json host _ _ _) as [[text|] w]; simpl;
    rewrite manifests_app, length_app, Q5, Q4, Q3, Q2, Q1; simpl; lia.
Qed.

(** * The command line *)

(** ** Strings *)

Lemma digit_visible c : Latin.digit_char c = true → visible c = true.
Proof.
  unfold Latin.digit_char, visible.
  intros [H1 H2]%andb_prop. apply Nat.leb_le in H1, H2.
  apply andb_true_intro. split; apply Nat.leb_le; lia.
Qed.

Lemma visible_not_space c : visible c = true → Latin.space c = false.
Proof.
  unfold Latin.space, visible.
  intros [H1 H2]%andb_prop. apply Nat.leb_le in H1, H2.
  apply orb_false_intro; apply andb_false_iff; right; apply Nat.leb_gt; lia.
Qed.

Lemma all_chars_mono (P Q : Ascii.ascii → bool) s :
  (∀ c, P c = true → Q c = true) →
  Latin.all_chars P s = true → Latin.all_chars Q s = true.
Proof.
  intros HPQ. induction s as [|c s IH]; [done|]. simpl.
  intros [Hc Hs]%andb_prop. rewrite (HPQ c Hc). by apply IH.
Qed.

Lemma last_char_all (P : Ascii.ascii → bool) s :
  s ≠ "" → Latin.all_chars P s = true → ∃ b, last_char s = Some b ∧ P b = true.
Proof.
  induction s as [|c s IH]; [done|]. intros _. simpl.
  intros [Hc Hs]%andb_prop. destruct s as [|c' s]; [by exists c|].
  by apply IH.
Qed.

(** A non-empty string of ASCII digits begins and ends with one. *)
Lemma digits_ends d :
  Latin.isdigit d = true →
  ∃ c d' b, d = String c d' ∧ Latin.digit_char c = true
            ∧ last_char d = Some b ∧ Latin.digit_char b = true.
Proof.
  destruct d as [|c d']; [done|]. intros Hall.
  change (Latin.all_chars Latin.digit_char (String c d') = true) in Hall.
  destruct (last_char_all _ (String c d') ltac:(done) Hall) as (b & Hb1 & Hb2).
  exists c, d', b. split; [done|]. split; [|done].
  simpl in Hall. by apply andb_prop in Hall as [? _].
Qed.

Lemma prefix_cons_ne a s1 b s2 :
  a ≠ b → String.prefix (String a s1) (String b s2) = false.
Proof.
  intros Hne.
  change (match Ascii.ascii_dec a b with
          | left _ => String.prefix s1 s2
          | right _ => false
          end = false).
  by destruct (Ascii.ascii_dec a b).
Qed.

(** Text without the letter h holds no occurrence of the address of VK. *)
Lemma replace_without_hit s :
  Latin.all_chars (λ c, negb (Latin.code c =? 104)) s = true →
  replace_from "https://vk.com/" 0 s = s.
Proof.
  induction s as [|c s IH]; [done|].
  intros [Hc Hs]%andb_prop.
  change (replace_from "https://vk.com/" 0 (String c s))
    with (if String.prefix "https://vk.com/" (String c s)
          then replace_from "https://vk.com/" 14 s
          else String c (replace_from "https://vk.com/" 0 s)).
  assert (String.prefix "https://vk.com/" (String c s) = false) as ->.
  { apply prefix_cons_ne. intros <-. by vm_compute in Hc. }
  by rewrite IH.
Qed.

Lemma replace_leading_address rest :
  replace_with_nothing "https://vk.com/" ("https://vk.com/" +:+ rest)
  = replace_from "https://vk.com/" 0 rest.
Proof. by destruct rest. Qed.

Lemma digits_without_h d :
  Latin.all_chars Latin.digit_char d = true →
  Latin.all_chars (λ c, negb (Latin.code c =? 104)) d = true.
Proof.
  apply all_chars_mono. intros c. unfold Latin.digit_char.
  intros [H1 H2]%andb_prop. apply Nat.leb_le in H1, H2.
  apply negb_true_iff, Nat.eqb_neq. lia.
Qed.

Lemma string_app_not_nil p d : d ≠ "" → p +:+ d ≠ "".
Proof. destruct p; [done|]. by rewrite string_app_cons. Qed.

Lemma last_char_app p d : d ≠ "" → last_char (p +:+ d) = last_char d.
Proof.
  intros Hd. induction p as [|c p IH]; [done|].
  rewrite string_app_cons. simpl.
  pose proof (string_app_not_nil p d Hd) as Hne.
  by destruct (p +:+ d).
Qed.

(** ** The identifier *)

Section Identifier.

Variable strip : string → string.
Variable isdigit : string → bool.
Hypothesis laws : StrLaws strip isdigit.

(** A string of digits, as [isdigit] has it, takes none of the three
    branches that cut a prefix. *)
Lemma digits_no_prefix r :
  isdigit r = true →
  startswith "https://vk.com/" r = false
  ∧ startswith "id" r = false ∧ startswith "@" r = false.
Proof.
  intros [Hne Hall]%(isdigit_chars _ _ laws).
  destruct r as [|c r]; [done|]. simpl in Hall.
  apply andb_prop in Hall as [Hc _]. unfold startswith.
  split_and!; apply prefix_cons_ne; intros <-; by vm_compute in Hc.
Qed.

Lemma validate_digits r :
  isdigit r = true → validate_and_clean_user_id strip isdigit r = Returned r.
Proof.
  intros Hr. unfold validate_and_clean_user_id.
  rewrite (isdigit_strip _ _ laws r Hr).
  destruct (digits_no_prefix r Hr) as (-> & -> & ->). by rewrite Hr.
Qed.

Lemma validate_returns_digits x r :
  validate_and_clean_user_id strip isdigit x = Returned r → isdigit r = true.
Proof.
  unfold validate_and_clean_user_id. cbv zeta.
  destruct (isdigit _) eqn:Hr; [|done]. by intros [= <-].
Qed.

(** A spelling that ends with the digits and begins with a visible
    character, or is the digits alone, has nothing to strip. *)
Lemma strip_spelling p d a :
  Latin.isdigit d = true →
  first_char (p +:+ d) = Some a → visible a = true →
  strip (p +:+ d) = p +:+ d.
Proof.
  intros Hd Ha Hvis.
  destruct (digits_ends d Hd) as (c & d' & b & Heq & _ & Hlast & Hb).
  apply (strip_visible _ _ laws _ a b); [done| |done|by apply digit_visible].
  rewrite last_char_app; [done|]. by rewrite Heq.
Qed.

(** The steps of the validation, one after the other. *)
Lemma validate_steps x y d :
  strip x = x →
  (startswith "https://vk.com/" x = false ∧ y = x
   ∨ startswith "https://vk.com/" x = true
     ∧ replace_with_nothing "https://vk.com/" x = y) →
  (startswith "id" y = true ∧ slice_from 2 y = d
   ∨ startswith "id" y = false ∧ startswith "@" y = true ∧ slice_from 1 y = d
   ∨ startswith "id" y = false ∧ startswith "@" y = false ∧ y = d) →
  validate_and_clean_user_id strip isdigit x
  = if isdigit d then Returned d
    else Raised (mkExn ValueError
           ("Некорректный ID пользователя: '" +:+ d +:+ "'" +:+ nl +:+
            "ID должен содержать только цифры или быть в формате 'id123456'"
            +:+ nl +:+
            "Примеры правильного ввода: 53688675, id53688675, @id53688675")).
Proof.
  intros Hstrip Haddress Hcut. unfold validate_and_clean_user_id.
  rewrite Hstrip.
  destruct Haddress as [[-> ->]|[-> ->]];
    by destruct Hcut as [[-> ->]|[(-> & -> & ->)|(-> & -> & ->)]].
Qed.

Lemma validate_spelling_with_address rest d :
  Latin.isdigit d = true →
  Latin.all_chars (λ c, negb (Latin.code c =? 104)) rest = true →
  (∃ p, rest = p +:+ d) →
  (startswith "id" rest = true ∧ slice_from 2 rest = d
   ∨ startswith "id" rest = false ∧ startswith "@" rest = true ∧ slice_from 1 rest = d
   ∨ startswith "id" rest = false ∧ startswith "@" rest = false ∧ rest = d) →
  validate_and_clean_user_id strip isdigit ("https://vk.com/" +:+ rest) = Returned d.
Proof.
  intros Hd Hrest [p ->] Hcut.
  rewrite (validate_steps _ (p +:+ d) d); [by rewrite (isdigit_ascii _ _ laws d Hd)| | |done].
  - change ("https://vk.com/" +:+ p +:+ d) with (("https://vk.com/" +:+ p) +:+ d).
    by erewrite (strip_spelling ("https://vk.com/" +:+ p) d); [|done|reflexivity|done].
  - right. split.
    + unfold startswith. by destruct (p +:+ d).
    + by rewrite replace_leading_address, (replace_without_hit _ Hrest).
Qed.

End Identifier.

(** X12.  Every spelling of an identifier that the code provides for is
    accepted and yields the digits: the digits alone, the digits after
    [id] or after [@], and each of these after the address of VK. *)
Theorem spellings_accepted (strip : string → string) (isdigit : string → bool)
    (d x : string) :
  StrLaws strip isdigit →
  Latin.isdigit d = true →
  x ∈ [d; "id" +:+ d; "@" +:+ d;
       "https://vk.com/" +:+ d; "https://vk.com/id" +:+ d; "https://vk.com/@" +:+ d] →
  validate_and_clean_user_id strip isdigit x = Returned d.
Proof.
  intros laws Hd Hx.
  destruct (digits_ends d Hd) as (c & d' & b & Heq & Hc & Hlast & Hb).
  assert (Latin.all_chars (λ c, negb (Latin.code c =? 104)) d = true) as Hnoh.
  { apply digits_without_h. by rewrite Heq in Hd |- *. }
  pose proof (isdigit_ascii _ _ laws d Hd) as Hdigits.
  set_unfold in Hx.
  destruct Hx as [->|[->|[->|[->|[->|[->|[]]]]]]].
  - by apply validate_digits.
  - rewrite (validate_steps strip isdigit ("id" +:+ d) ("id" +:+ d) d);
      [by rewrite Hdigits| | |].
    + by erewrite (strip_spelling strip isdigit laws "id" d); [|done|reflexivity|done].
    + left. by rewrite Heq.
    + left. by rewrite Heq.
  - rewrite (validate_steps strip isdigit ("@" +:+ d) ("@" +:+ d) d);
      [by rewrite Hdigits| | |].
    + by erewrite (strip_spelling strip isdigit laws "@" d); [|done|reflexivity|done].
    + left. by rewrite Heq.
    + right. left. by rewrite Heq.
  - apply (validate_spelling_with_address strip isdigit laws); [done|done|by exists ""|].
    destruct (digits_no_prefix strip isdigit laws d Hdigits) as (_ & ? & ?).
    right. by right.
  - change ("https://vk.com/id" +:+ d) with ("https://vk.com/" +:+ ("id" +:+ d)).
    apply (validate_spelling_with_address strip isdigit laws);
      [done|done|by exists "id"|].
    left. by rewrite Heq.
  - change ("https://vk.com/@" +:+ d) with ("https://vk.com/" +:+ ("@" +:+ d)).
    apply (validate_spelling_with_address strip isdigit laws);
      [done|done|by exists "@"|].
    right. left. by rewrite Heq.
Qed.


(** ** The ASCII rendering obeys the laws *)

Lemma rstrip_keeps s b :
  last_char s = Some b → Latin.space b = false → Latin.rstrip s = s.
Proof.
  intros Hlast Hb. induction s as [|c s IH]; [done|].
  simpl in *. destruct s as [|c' s].
  - injection Hlast as ->. simpl. by rewrite Hb.
  - by rewrite (IH Hlast).
Qed.

Lemma latin_strip_keeps s a b :
  first_char s = Some a → last_char s = Some b →
  visible a = true → visible b = true → Latin.strip s = s.
Proof.
  intros Ha Hb Hva Hvb. unfold Latin.strip.
  destruct s as [|c s]; [done|]. injection Ha as ->.
  simpl Latin.lstrip. rewrite (visible_not_space _ Hva).
  apply (rstrip_keeps _ b); [done|]. by apply visible_not_space.
Qed.

Lemma latin_laws : StrLaws Latin.strip Latin.isdigit.
Proof.
  split.
  - apply latin_strip_keeps.
  - done.
  - intros s Hs. destruct s as [|c s]; [done|]. split; [done|].
    revert Hs. apply all_chars_mono. intros x ->. apply orb_true_r.
  - intros s Hs.
    destruct (digits_ends s Hs) as (c & s' & b & -> & Hc & Hlast & Hb).
    apply (latin_strip_keeps _ c b); [done|done|by apply digit_visible..].
Qed.

Lemma spellings_accepted_witness :
  validate_and_clean_user_id Latin.strip Latin.isdigit "https://vk.com/id53688675"
  = Returned "53688675".
Proof.
  apply (spellings_accepted Latin.strip Latin.isdigit "53688675").
  - apply latin_laws.
  - reflexivity.
  - set_unfold. do 4 right. left. reflexivity.
Defined.

(** X13.  The spelling [@id] followed by digits, which the prompt of
    [get_user_input] and the message of the [ValueError] itself give as an
    example of correct input, is rejected: only the [@] is cut, and what
    is left begins with [id]. *)
Theorem at_id_spelling_rejected (strip : string → string) (isdigit : string → bool)
    (d : string) :
  StrLaws strip isdigit →
  Latin.isdigit d = true →
  validate_and_clean_user_id strip isdigit ("@id" +:+ d)
  = Raised (mkExn ValueError
      ("Некорректный ID пользователя: 'id" +:+ d +:+ "'" +:+ nl +:+
       "ID должен содержать только цифры или быть в формате 'id123456'" +:+ nl +:+
       "Примеры правильного ввода: 53688675, id53688675, @id53688675")).
Proof.
  intros laws Hd.
  rewrite (validate_steps strip isdigit ("@id" +:+ d) ("@id" +:+ d) ("id" +:+ d)).
  - destruct (isdigit ("id" +:+ d)) eqn:Hid; [|done].
    apply (isdigit_chars _ _ laws) in Hid as [_ Hall].
    rewrite !string_app_cons in Hall. simpl in Hall.
    by vm_compute in Hall.
  - by erewrite (strip_spelling strip isdigit laws "@id" d); [|done|reflexivity|done].
  - by left.
  - right. by left.
Qed.

Lemma at_id_spelling_rejected_witness :
  ∃ text,
    validate_and_clean_user_id Latin.strip Latin.isdigit "@id53688675"
    = Raised (mkExn ValueError text)
    ∧ ends_with "@id53688675" text.
Proof.
  eexists. split.
  - apply (at_id_spelling_rejected Latin.strip Latin.isdigit "53688675").
    + apply latin_laws.
    + reflexivity.
  - by exists ("Некорректный ID пользователя: 'id53688675'" +:+ nl +:+
       "ID должен содержать только цифры или быть в формате 'id123456'" +:+ nl +:+
       "Примеры правильного ввода: 53688675, id53688675, ").
Defined.

(** X14.  What the validation returns is a string of digits, and validating it
    again returns it unchanged. *)
Theorem validated_id_is_stable (strip : string → string) (isdigit : string → bool)
    (x r : string) :
  StrLaws strip isdigit →
  validate_and_clean_user_id strip isdigit x = Returned r →
  isdigit r = true ∧ validate_and_clean_user_id strip isdigit r = Returned r.
Proof.
  intros laws Hx.
  pose proof (validate_returns_digits strip isdigit x r Hx) as Hr.
  split; [done|]. by apply validate_digits.
Qed.

Lemma validated_id_is_stable_witness :
  Latin.isdigit "53688675" = true
  ∧ validate_and_clean_user_id Latin.strip Latin.isdigit "53688675" = Returned "53688675".
Proof.
  apply (validated_id_is_stable Latin.strip Latin.isdigit "  https://vk.com/id53688675 ").
  - apply latin_laws.
  - reflexivity.
Defined.

(** ** The dialogue *)

Section Dialogue.

Variable strip : string → string.
Variable isdigit : string → bool.
Variable int : string → option Z.



End Dialogue.


Example get_user_input_asks_again :
  get_user_input Latin.strip Latin.isdigit Latin.int
    [""; "@id53688675"; "  id53688675 "; "0"; "many"; ""; "next"]
  = Told ("53688675", 5%Z) ["next"].
Proof. reflexivity. Qed.

(** ** The exit status *)

Lemma exit_status_failure text : exit_status (failure text) = 1%Z.
Proof. unfold exit_status, failure. by simplify_map_eq. Qed.

Lemma exit_status_success total uploaded folder_name json_filename entries :
  exit_status (success total uploaded folder_name json_filename entries) = 0%Z.
Proof.
  unfold exit_status, success. simplify_map_eq. simpl.
  by destruct (_ <? _)%Z.
Qed.

(** X16.  The exit status of [main].  Without one of the two tokens, set and
    not empty, it is 1 and nothing has been read or sent; when the input
    ends before an identifier and a count are there, it is 1 and nothing
    has been sent; otherwise the run decides: 0 when its dictionary has
    [success] true and 1 when not, [main] finding every key it reads in
    the dictionary. *)
Theorem main_exit_status {World : Type} (host : Host World)
    (strip : string → string) (isdigit : string → bool) (int : string → option Z)
    (fuel : nat) (environ : gmap string string) (stdin : list string)
    (s : State World) :
  let ending := main host strip isdigit int fuel environ stdin s in
  match get_tokens_from_env environ with
  | Returned (vk_token, yandex_token) =>
      environ !! "VK_TOKEN" = Some vk_token ∧ vk_token ≠ ""
      ∧ environ !! "YANDEX_TOKEN" = Some yandex_token ∧ yandex_token ≠ ""
      ∧ match get_user_input strip isdigit int stdin with
        | Told (user_id, count) unread =>
            let run := backup_photos host (mkVKPhotoBackup vk_token yandex_token)
                         fuel user_id count s in
            ending.1.2 = unread ∧ ending.2 = run.2
            ∧ match run.1 with
              | Returned result =>
                  ending.1.1 = Some (match result !! "success" with
                                     | Some (VBool true) => 0
                                     | _ => 1
                                     end)%Z
              | Raised _ => False
              | OutOfFuel => ending.1.1 = None
              end
        | EndOfInput => ending = (Some 1%Z, [], s)
        end
  | _ =>
      (environ !! "VK_TOKEN" = None ∨ environ !! "VK_TOKEN" = Some ""
       ∨ environ !! "YANDEX_TOKEN" = None ∨ environ !! "YANDEX_TOKEN" = Some "")
      ∧ ending = (Some 1%Z, stdin, s)
  end.
Proof.
  intros ending. subst ending. unfold main, get_tokens_from_env, getenv, not_given.
  destruct (environ !! "VK_TOKEN") as [vk|] eqn:Hvk; [|by auto].
  destruct (String.eqb vk "") eqn:Hvk'.
  { apply String.eqb_eq in Hvk' as ->. by auto. }
  apply String.eqb_neq in Hvk'.
  destruct (environ !! "YANDEX_TOKEN") as [ya|] eqn:Hya; [|by auto 6].
  destruct (String.eqb ya "") eqn:Hya'.
  { apply String.eqb_eq in Hya' as ->. by auto 6. }
  apply String.eqb_neq in Hya'. simpl.
  split; [done|]. split; [done|]. split; [done|]. split; [done|].
  destruct (get_user_input strip isdigit int stdin) as [[user_id count] unread|];
    [|done].
  cbv zeta.
  destruct (backup_photos_outcome host (mkVKPhotoBackup vk ya) fuel user_id count s)
    as [[text Hrun]|[[Hrun _]|(fetched & date & l & Hrun)]].
  - destruct (backup_photos host _ fuel user_id count s) as [r s'].
    simpl in Hrun. subst r. simpl. split; [done|]. split; [done|].
    rewrite exit_status_failure. unfold failure. by simplify_map_eq.
  - destruct (backup_photos host _ fuel user_id count s) as [r s'].
    simpl in Hrun. by subst r.
  - cbv zeta in Hrun. destruct Hrun as (_ & _ & _ & _ & _ & _ & _ & _ & _ & ->).
    simpl. split; [done|]. split; [done|].
    rewrite exit_status_success. unfold success. by simplify_map_eq.
Qed.

Example main_runs :
  let s0 := Simulation.start Simulation.five_photos [202; 500; 202; 202; 202]%Z in
  let environ : gmap string string :=
    <["VK_TOKEN" := "vk-token"]> (<["YANDEX_TOKEN" := "disk-token"]> ∅) in
  let ending :=
    main Simulation.sim_host Latin.strip Latin.isdigit Latin.int 10 environ
      ["id1"; ""] s0 in
  ending.1 = (Some 0%Z, [])
  ∧ (main Simulation.sim_host Latin.strip Latin.isdigit Latin.int 10
       (delete "YANDEX_TOKEN" environ) ["id1"; ""] s0).1
    = (Some 1%Z, ["id1"; ""]).
Proof. vm_compute. done. Qed.
